(** * Session store and recommendation pipeline of ecommerce-session-recsys

    A shallow embedding of [src/api/session_store.py], [src/api/recommender.py],
    [src/features/feature_builder.py] and [src/utils/helpers.py], with the
    properties of the design document proved or refuted on it.

    Conventions.
    - Python [int] is [Z]; Python [float] is [Qc] (rationals in lowest terms,
      so numeric equality is [=]); rounding, infinities and NaN are outside the
      model. A property that exact arithmetic gives and rounding or overflow
      could break is stated under [Py.int_exact] or [Py.half_range], the
      ranges in which the double is the number read here.
    - A [dict] whose insertion order is observable (the popularity table) is an
      association list in insertion order; a [dict] used only through lookups
      is a [gmap].
    - A Python [set] is a [gset]; its iteration order is not fixed by the
      language and is a parameter of every function that lists a set.
    - A call that can raise returns [option]; [None] stands for the exception. *)

From Stdlib Require Import QArith Qcanon Qround Sorted Permutation Lqa.
From stdpp Require Import base numbers option list sorting gmap strings pretty.

Local Open Scope Z_scope.

#[local] Set Warnings "-clear-no-such-hyp".

(** ** Python and Redis primitives *)

Module Py.

(** [l[:k]]: the first [k] elements, or all but the last [-k] when [k < 0]. *)
Definition slice_to {A} (k : Z) (l : list A) : list A :=
  if decide (0 ≤ k) then take (Z.to_nat k) l
  else take (length l - Z.to_nat (- k)) l.

(** [sorted(l, key=key, reverse=True)] and [l.sort(key=key, reverse=True)]:
    Python's sort is stable also under [reverse=True], and a stable sort is
    determined by its input, so insertion from the right models it. *)
Section sort.
Context {A K : Type} (le : K → K → Prop) `{!RelDecision le} (key : A → K).

Fixpoint insert_desc (x : A) (l : list A) : list A :=
  match l with
  | [] => [x]
  | y :: l' =>
      if decide (le (key y) (key x)) then x :: l
      else y :: insert_desc x l'
  end.

Definition sorted_desc (l : list A) : list A := foldr insert_desc [] l.
End sort.

(** [enumerate(l, start)] *)
Fixpoint enumerate {A} (start : Z) (l : list A) : list (Z * A) :=
  match l with
  | [] => []
  | x :: l' => (start, x) :: enumerate (start + 1) l'
  end.

(** [d.get(key, default)] on a dict kept in insertion order *)
Fixpoint dict_get {V} (d : list (string * V)) (key : string) (default : V) : V :=
  match d with
  | [] => default
  | (k, v) :: d' => if decide (k = key) then v else dict_get d' key default
  end.

(** [l.index(x)]: position of the first element equal to [x]; [None] is the
    [ValueError] *)
Fixpoint index {A} `{EqDecision A} (x : A) (l : list A) : option nat :=
  match l with
  | [] => None
  | y :: l' => if decide (y = x) then Some 0%nat else S <$> index x l'
  end.

(** [l.count(x)] *)
Definition count {A} `{EqDecision A} (x : A) (l : list A) : nat :=
  length (filter (λ y, y = x) l).

(** [max] of a list of floats: the first of its greatest elements; [None] is
    the [ValueError] on the empty list. *)
Definition max_of (x : Qc) (l : list Qc) : Qc :=
  foldl (λ m y, if decide (m < y)%Qc then y else m) x l.

Definition max (l : list Qc) : option Qc :=
  match l with
  | [] => None
  | x :: l' => Some (max_of x l')
  end.

(** [sum] of a list of floats *)
Definition sum (l : list Qc) : Qc := foldl Qcplus 0%Qc l.

(** [min] of a list of floats: the first of its least elements *)
Definition min_of (x : Qc) (l : list Qc) : Qc :=
  foldl (λ m y, if decide (y < m)%Qc then y else m) x l.

Definition min (l : list Qc) : option Qc :=
  match l with
  | [] => None
  | x :: l' => Some (min_of x l')
  end.

(** [max(a, b)] of two floats: [b] when it is greater, else [a] *)
Definition max2 (a b : Qc) : Qc := if decide (a < b)%Qc then b else a.

(** The ranges in which a double is the rational read here: [float(n)] is
    [n] for an int of absolute value at most [2^53], and the difference of two
    floats of absolute value at most [2^1022] is finite. *)
Definition int_exact (n : Z) : Prop := Z.abs n ≤ 2 ^ 53.

Global Instance int_exact_dec n : Decision (int_exact n).
Proof. unfold int_exact. apply _. Defined.

Definition half_range (x : Qc) : Prop :=
  (- Qc_of_Z (2 ^ 1022) ≤ x)%Qc ∧ (x ≤ Qc_of_Z (2 ^ 1022))%Qc.

Global Instance half_range_dec x : Decision (half_range x).
Proof. unfold half_range. apply _. Defined.

(** [range(0, stop, step)] for the length [stop] of a list: a zero step is a
    [ValueError], a negative step gives no index. *)
Definition range_to (stop : nat) (step : Z) : option (list Z) :=
  if decide (step = 0) then None
  else if decide (step < 0) then Some []
  else Some ((λ j, Z.of_nat j * step)
               <$> seq 0 (Z.to_nat ((Z.of_nat stop + step - 1) `div` step))).

(** [l[i:j]] for [0 ≤ i ≤ j] *)
Definition slice {A} (i j : Z) (l : list A) : list A :=
  take (Z.to_nat (j - i)) (drop (Z.to_nat i) l).

End Py.

Module Redis.

(** A Redis start index: negative indices count from the end of the list,
    and a start before the first element is the first element. *)
Definition resolve (len : nat) (i : Z) : Z :=
  if decide (i < 0) then Z.max 0 (Z.of_nat len + i) else i.

(** A Redis stop index: negative indices count from the end of the list; a
    stop before the first element stays negative and the range is empty. *)
Definition resolve_stop (len : nat) (i : Z) : Z :=
  if decide (i < 0) then Z.of_nat len + i else i.

(** The elements of [l] at positions [start .. stop], both inclusive, as
    LRANGE and ZREVRANGE return them and LTRIM keeps them. *)
Definition range {A} (start stop : Z) (l : list A) : list A :=
  let s := resolve (length l) start in
  let e := resolve_stop (length l) stop in
  if decide (e < s) then []
  else take (Z.to_nat (e - s + 1)) (drop (Z.to_nat s) l).

End Redis.

(** ** src/api/session_store.py *)

Module SessionStore.

(** The event dict that [add_event] serialises with [json.dumps]; the
    serialisation is injective on these four fields, so the record stands for
    the stored member. *)
Record Event := {
  item_id : string;
  event_type : string;
  timestamp : Z;
  metadata : list (string * string);
}.

Global Instance Event_eq_dec : EqDecision Event.
Proof. solve_decision. Defined.

(** The part of a Redis database the store touches: sorted sets (member and
    score; the order by score is not needed here and not kept), lists and
    hashes, by key. Key expiry needs a clock and is left out: [expire] changes
    no value. *)
Record Db := {
  zsets : gmap string (list (Event * Z));
  lists : gmap string (list string);
  hashes : gmap string (gmap string Z);
}.

Definition empty_db : Db := {| zsets := ∅; lists := ∅; hashes := ∅ |}.

Definition zadd (key : string) (member : Event) (score : Z) (db : Db) : Db :=
  let old := default [] (zsets db !! key) in
  let others := filter (λ p, p.1 ≠ member) old in
  {| zsets := <[key := others ++ [(member, score)]]> (zsets db);
     lists := lists db; hashes := hashes db |}.

Definition zcard (key : string) (db : Db) : Z :=
  Z.of_nat (length (default [] (zsets db !! key))).

Definition lpush (key : string) (x : string) (db : Db) : Db :=
  {| zsets := zsets db;
     lists := <[key := x :: default [] (lists db !! key)]> (lists db);
     hashes := hashes db |}.

Definition ltrim (key : string) (start stop : Z) (db : Db) : Db :=
  {| zsets := zsets db;
     lists := <[key := Redis.range start stop (default [] (lists db !! key))]> (lists db);
     hashes := hashes db |}.

Definition lrange (key : string) (start stop : Z) (db : Db) : list string :=
  Redis.range start stop (default [] (lists db !! key)).

Definition hincrby (key field : string) (n : Z) (db : Db) : Db :=
  let h := default ∅ (hashes db !! key) in
  {| zsets := zsets db; lists := lists db;
     hashes := <[key := <[field := default 0 (h !! field) + n]> h]> (hashes db) |}.

Definition hgetall (key : string) (db : Db) : gmap string Z :=
  default ∅ (hashes db !! key).

Definition events_key (session_id : string) : string :=
  "session:" +:+ session_id +:+ ":events".
Definition items_key (session_id : string) : string :=
  "session:" +:+ session_id +:+ ":items".
Definition counters_key (session_id : string) : string :=
  "session:" +:+ session_id +:+ ":counters".

(** [add_event]; [now] is the reading of [datetime.utcnow()] used when no
    timestamp is passed. Returns the database and the event count. *)
Definition add_event (now : Z) (session_id item event_ty : string)
    (ts : option Z) (meta : option (list (string * string))) (db : Db) : Db * Z :=
  let ts := default now ts in
  let event := {| item_id := item; event_type := event_ty;
                  timestamp := ts; metadata := default [] meta |} in
  let key := events_key session_id in
  let db := zadd key event ts db in
  let ikey := items_key session_id in
  let db := lpush ikey item db in
  let db := ltrim ikey 0 99 db in
  let db := hincrby (counters_key session_id) event_ty 1 db in
  (db, zcard key db).

Definition get_recent_items (session_id : string) (n : Z) (db : Db) : list string :=
  lrange (items_key session_id) 0 (n - 1) db.

Definition get_event_counts (session_id : string) (db : Db) : gmap string Z :=
  hgetall (counters_key session_id) db.

(** The recency list as stored, whole. *)
Definition recency_list (session_id : string) (db : Db) : list string :=
  default [] (lists db !! items_key session_id).

(** One [add_event] call on a session: item, event type, timestamp, metadata
    and the clock reading. *)
Record Call := {
  c_item : string;
  c_type : string;
  c_timestamp : option Z;
  c_metadata : option (list (string * string));
  c_now : Z;
}.

Definition record_event (session_id : string) (db : Db) (c : Call) : Db :=
  (add_event (c_now c) session_id (c_item c) (c_type c) (c_timestamp c) (c_metadata c) db).1.

Definition record_events (session_id : string) (db : Db) (cs : list Call) : Db :=
  foldl (record_event session_id) db cs.

(** DEL: the keys are removed, whatever they hold. *)
Definition del (keys : list string) (db : Db) : Db :=
  {| zsets := foldr delete (zsets db) keys;
     lists := foldr delete (lists db) keys;
     hashes := foldr delete (hashes db) keys |}.

Definition clear_session (session_id : string) (db : Db) : Db :=
  del [events_key session_id; items_key session_id; counters_key session_id] db.

(** The event log as stored, whole, and the event count [zcard] reads. *)
Definition event_log (session_id : string) (db : Db) : list (Event * Z) :=
  default [] (zsets db !! events_key session_id).

(** A sorted set holds a member once. *)
Definition log_wf (session_id : string) (db : Db) : Prop :=
  NoDup (event_log session_id db).*1.


Section member_order.
(** Redis orders the members of one score by the bytes of the member, here
    the JSON text of the event; that order is a parameter. *)
Context (member_le : Event → Event → Prop) `{!RelDecision member_le}.

Definition zset_le (p q : Event * Z) : Prop :=
  p.2 < q.2 ∨ (p.2 = q.2 ∧ member_le p.1 q.1).

Global Instance zset_le_dec : RelDecision zset_le.
Proof. intros p q. unfold zset_le. apply _. Defined.

(** ZREVRANGE: the members from the highest score down, positions
    [start .. stop]. *)
Definition zrevrange (key : string) (start stop : Z) (db : Db) : list (Event * Z) :=
  Redis.range start stop (Py.sorted_desc zset_le id (default [] (zsets db !! key))).

(** [get_session_events]; every stored member is the JSON text of an event,
    so none fails to parse. *)
Definition get_session_events (session_id : string) (limit : Z) (db : Db) : list Event :=
  (zrevrange (events_key session_id) 0 (limit - 1) db).*1.
End member_order.

End SessionStore.

(** ** src/api/recommender.py *)

Module Recommender.

(** The dict built by [SessionStore.get_session_context]; all three keys are
    always present, so the [.get] defaults are never used. *)
Record SessionContext := {
  recent_items : list string;
  recent_events : list SessionStore.Event;
  event_counts : gmap string Z;
}.

(** A row of the item-similarity frame. *)
Record SimilarityRow := {
  item_id_1 : string;
  item_id_2 : string;
  similarity : Qc;
}.

(** A row of the frame of [build_features], without its [item_id] column. *)
Record Features := {
  f_item_popularity : Z;
  f_item_popularity_log : Qc;
  f_session_length : Z;
  f_session_views : Z;
  f_session_clicks : Z;
  f_session_add_to_cart : Z;
  f_in_recent_items : Z;
  f_position_in_session : Z;
}.

(** The recommender once [_load_artifacts] has run through: the popularity
    table is a dict (that of the artifact, or the empty one); the ranker and
    the similarity frame are optional. The ranker is opaque: [predict] maps the
    feature frame to one score per row, or raises. *)
Record SessionRecommender := {
  model : option (list Features → option (list Qc));
  item_similarity : option (list SimilarityRow);
  item_popularity : list (string * Z);
}.

Inductive Reason := viewed_recently | popular | recommended.

Global Instance Reason_eq_dec : EqDecision Reason.
Proof. solve_decision. Defined.

(** The dict appended by [recommend]. *)
Record RankedItem := {
  ri_item_id : string;
  ri_score : Qc;
  ri_reason : Reason;
  ri_rank : Z;
}.

(** [similar_df] of [_get_similar_items]: the rows of the source item by
    descending similarity, the first [n] of them. Rows of equal similarity are
    kept in frame order here; pandas does not promise an order among them, and
    no property below depends on it. *)
Definition similar_df (self : SessionRecommender) (item : string) (n : nat)
    : list SimilarityRow :=
  match item_similarity self with
  | None => []
  | Some frame =>
      take n (Py.sorted_desc Qcle similarity (filter (λ row, item_id_1 row = item) frame))
  end.

Definition _get_similar_items (self : SessionRecommender) (item : string) (n : nat)
    : list string :=
  item_id_2 <$> similar_df self item n.

(** [popular_items] of [generate_candidates]: the fifty most popular entries. *)
Definition popular_items (self : SessionRecommender) : list (string * Z) :=
  take 50 (Py.sorted_desc Z.le snd (item_popularity self)).

(** [generate_candidates], in the order of its statements: the set after the
    similarity strategy, after both strategies and the two removals, and after
    the fallback. *)
Definition similar_candidates (self : SessionRecommender) (session_context : SessionContext)
    : gset string :=
  let recent := recent_items session_context in
  match item_similarity self with
  | Some _ =>
      if decide (0 < length recent)%nat then
        foldl (λ c item, c ∪ list_to_set (_get_similar_items self item 20))
              ∅ (Py.slice_to 5 recent)
      else ∅
  | None => ∅
  end.

Definition filtered_candidates (self : SessionRecommender) (session_context : SessionContext)
    (exclude_items : option (list string)) : gset string :=
  let recent := recent_items session_context in
  let exclude_set : gset string := list_to_set (default [] exclude_items) in
  let candidates := similar_candidates self session_context in
  let candidates :=
    match item_popularity self with
    | [] => candidates
    | _ => candidates ∪ list_to_set ((popular_items self).*1)
    end in
  let candidates := candidates ∖ list_to_set recent in
  candidates ∖ exclude_set.

Definition candidate_set (self : SessionRecommender) (session_context : SessionContext)
    (k : Z) (exclude_items : option (list string)) : gset string :=
  let candidates := filtered_candidates self session_context exclude_items in
  if decide (size candidates = 0)%nat
  then list_to_set (Py.slice_to k ((item_popularity self).*1))
  else candidates.

(** An order of iteration lists every set as its members, once each. *)
Definition set_iteration (set_order : gset string → list string) : Prop :=
  ∀ s, set_order s ≡ₚ elements s.

(** The iteration order that lists the members among [first] as [first] has
    them, and then the others. *)
Definition listing_first (first : list string) (s : gset string) : list string :=
  filter (λ x, x ∈ s) (remove_dups first) ++ filter (λ x, x ∉ first) (elements s).

Section set_order.
(** [list(s)] for a set [s]: an order of iteration. CPython places the
    strings of a set by their hashes, which are salted anew in each process,
    so the order is not a function of the members' values; the properties
    below assume of it only [set_iteration]. *)
Variable set_order : gset string → list string.

Definition generate_candidates (self : SessionRecommender)
    (session_context : SessionContext) (k : Z) (exclude_items : option (list string))
    : list string :=
  Py.slice_to k (set_order (candidate_set self session_context k exclude_items)).

(** [numpy.log1p], a real function, is a parameter. *)
Variable log1p : Z → Qc.

Definition build_features (self : SessionRecommender) (candidates : list string)
    (session_context : SessionContext) : list (string * Features) :=
  let recent := recent_items session_context in
  let counts := event_counts session_context in
  (λ item,
     (item,
      {| f_item_popularity := Py.dict_get (item_popularity self) item 0;
         f_item_popularity_log := log1p (Py.dict_get (item_popularity self) item 0);
         f_session_length := Z.of_nat (length recent);
         f_session_views := default 0 (counts !! "view");
         f_session_clicks := default 0 (counts !! "click");
         f_session_add_to_cart := default 0 (counts !! "add_to_cart");
         f_in_recent_items := if decide (item ∈ recent) then 1 else 0;
         f_position_in_session :=
           match Py.index item recent with
           | Some i => Z.of_nat i
           | None => -1
           end |})) <$> candidates.

Definition _get_reason (feature_row : Features) : Reason :=
  if decide (f_in_recent_items feature_row = 1) then viewed_recently
  else if decide (1000 < f_item_popularity feature_row) then popular
  else recommended.

(** [rank_candidates]. Without a ranker the score column is read from the
    frame, which has no columns, hence no such column, when there is no
    candidate. *)
Definition rank_candidates (self : SessionRecommender) (candidates : list string)
    (session_context : SessionContext) : option (list (string * Qc * Reason)) :=
  let features_df := build_features self candidates session_context in
  scores ← match model self with
           | Some predict => predict (features_df.*2)
           | None =>
               match features_df with
               | [] => None
               | _ => Some ((λ row, Qc_of_Z (f_item_popularity row.2)) <$> features_df)
               end
           end;
  let results :=
    zip_with (λ row score, (row.1, score, _get_reason row.2)) features_df scores in
  Some (Py.sorted_desc Qcle (λ x, x.1.2) results).

Definition recommend (self : SessionRecommender) (session_context : SessionContext)
    (k : Z) (exclude_items : option (list string)) : option (list RankedItem) :=
  let candidates :=
    generate_candidates self session_context (Z.max (k * 5) 100) exclude_items in
  if decide (length candidates = 0)%nat then Some []
  else
    ranked ← rank_candidates self candidates session_context;
    Some ((λ p, {| ri_item_id := p.2.1.1; ri_score := p.2.1.2;
                   ri_reason := p.2.2; ri_rank := p.1 |})
            <$> Py.enumerate 1 (Py.slice_to k ranked)).

End set_order.

(** *** The object in either state of [item_popularity]

    [__init__] sets [item_popularity] to [None] (line 18) and
    [_load_artifacts] assigns it the dict of the artifact or [{}] (lines 46
    and 50). An exception raised before that assignment is logged and
    swallowed (lines 60-62), and the object then serves requests with the
    attribute still [None]. [SessionRecommender] above is the object with the
    attribute assigned; [Attributes] is the object in either state. *)
Module Instance.

Record Attributes := {
  model : option (list Features → option (list Qc));
  item_similarity : option (list SimilarityRow);
  item_popularity : option (list (string * Z));
}.

(** The object whose [item_popularity] is the dict [table]. *)
Definition loaded (self : Attributes) (table : list (string * Z)) : SessionRecommender :=
  {| Recommender.model := model self;
     Recommender.item_similarity := item_similarity self;
     Recommender.item_popularity := table |}.

Definition of_loaded (recommender : SessionRecommender) : Attributes :=
  {| model := Recommender.model recommender;
     item_similarity := Recommender.item_similarity recommender;
     item_popularity := Some (Recommender.item_popularity recommender) |}.

Section methods.
Variable set_order : gset string → list string.
Variable log1p : Z → Qc.

(** [generate_candidates]. [None] fails the test of line 82 as the empty dict
    does, so the set of lines 91-92 is that of the similarity strategy, less
    the recent and the excluded items; when it is empty, line 97 calls [keys]
    on [None], an [AttributeError]. *)
Definition generate_candidates (self : Attributes) (session_context : SessionContext)
    (k : Z) (exclude_items : option (list string)) : option (list string) :=
  match item_popularity self with
  | Some table =>
      Some (Recommender.generate_candidates set_order (loaded self table)
              session_context k exclude_items)
  | None =>
      let candidates := filtered_candidates (loaded self []) session_context exclude_items in
      if decide (size candidates = 0)%nat then None
      else Some (Py.slice_to k (set_order candidates))
  end.

(** [build_features]: for the first candidate, line 128 calls [get] on
    [None], an [AttributeError]; without candidates the frame is empty. *)
Definition build_features (self : Attributes) (candidates : list string)
    (session_context : SessionContext) : option (list (string * Features)) :=
  match item_popularity self with
  | Some table =>
      Some (Recommender.build_features log1p (loaded self table) candidates session_context)
  | None =>
      match candidates with
      | [] => Some []
      | _ :: _ => None
      end
  end.

(** [rank_candidates] starts with [build_features]; on the empty frame it
    goes on as with any popularity table. *)
Definition rank_candidates (self : Attributes) (candidates : list string)
    (session_context : SessionContext) : option (list (string * Qc * Reason)) :=
  match item_popularity self with
  | Some table =>
      Recommender.rank_candidates log1p (loaded self table) candidates session_context
  | None =>
      match build_features self candidates session_context with
      | Some _ => Recommender.rank_candidates log1p (loaded self []) [] session_context
      | None => None
      end
  end.

Definition recommend (self : Attributes) (session_context : SessionContext)
    (k : Z) (exclude_items : option (list string)) : option (list RankedItem) :=
  candidates ← generate_candidates self session_context (Z.max (k * 5) 100) exclude_items;
  if decide (length candidates = 0)%nat then Some []
  else
    ranked ← rank_candidates self candidates session_context;
    Some ((λ p, {| ri_item_id := p.2.1.1; ri_score := p.2.1.2;
                   ri_reason := p.2.2; ri_rank := p.1 |})
            <$> Py.enumerate 1 (Py.slice_to k ranked)).
End methods.

End Instance.

(** *** The orders the design document names *)

Definition str_le (x y : string) : Prop := String.leb x y = true.

Global Instance str_le_dec : RelDecision str_le.
Proof. intros x y. unfold str_le. apply _. Defined.

(** The similarity score under which a candidate was proposed: that of its
    first row among the similar rows of the five most recent items; [None]
    for a candidate that only popularity proposes. *)
Definition similarity_score (self : SessionRecommender) (session_context : SessionContext)
    (x : string) : option Qc :=
  similarity <$>
    head (filter (λ row, item_id_2 row = x)
            (mjoin ((λ item, similar_df self item 20)
                      <$> Py.slice_to 5 (recent_items session_context)))).

(** Similarity-sourced before popularity-sourced; among the former by
    descending similarity, among the latter by descending count; ties by
    ascending item id. *)
Definition candidate_before (self : SessionRecommender) (session_context : SessionContext)
    (x y : string) : Prop :=
  match similarity_score self session_context x, similarity_score self session_context y with
  | Some sx, Some sy => (sy < sx)%Qc ∨ (sx = sy ∧ str_le x y)
  | Some _, None => True
  | None, Some _ => False
  | None, None =>
      let px := Py.dict_get (item_popularity self) x 0 in
      let py := Py.dict_get (item_popularity self) y 0 in
      py < px ∨ (px = py ∧ str_le x y)
  end.

Global Instance candidate_before_dec self ctx : RelDecision (candidate_before self ctx).
Proof.
  intros x y. unfold candidate_before.
  destruct (similarity_score self ctx x), (similarity_score self ctx y); apply _.
Defined.

(** Descending score. *)
Definition score_desc (x y : string * Qc * Reason) : Prop := (y.1.2 ≤ x.1.2)%Qc.

(** Descending score, and ascending item id among equal scores. *)
Definition score_desc_then_id (x y : string * Qc * Reason) : Prop :=
  (y.1.2 < x.1.2)%Qc ∨ (x.1.2 = y.1.2 ∧ str_le x.1.1 y.1.1).

Global Instance score_desc_then_id_dec : RelDecision score_desc_then_id.
Proof. intros x y. unfold score_desc_then_id. apply _. Defined.

(** The reason as the design document words it. *)
Definition reason_of (in_recent_items : bool) (popularity : Z) : Reason :=
  if in_recent_items then viewed_recently
  else if bool_decide (1000 < popularity) then popular
  else recommended.

(** *** [get_session_context] of src/api/session_store.py and the
    recommendation endpoint of src/api/main.py *)

Section service.
Context (member_le : SessionStore.Event → SessionStore.Event → Prop)
  `{!RelDecision member_le}.
Variable set_order : gset string → list string.
Variable log1p : Z → Qc.

Definition get_session_context (session_id : string) (db : SessionStore.Db)
    : SessionContext :=
  {| recent_items := SessionStore.get_recent_items session_id 20 db;
     recent_events := SessionStore.get_session_events member_le session_id 50 db;
     event_counts := SessionStore.get_event_counts session_id db |}.

(** [RecommendationRequest] of src/api/schemas.py; the schema admits
    [1 ≤ k ≤ 100]. *)
Record RecommendationRequest := {
  req_session_id : string;
  req_k : Z;
  req_exclude_items : option (list string);
}.

Definition valid_request (req : RecommendationRequest) : Prop :=
  1 ≤ req_k req ≤ 100.

(** The recommendations of [get_recommendations]; [None] is the HTTP 500
    that the handler makes of any exception. *)
Definition get_recommendations (recommender : SessionRecommender)
    (db : SessionStore.Db) (req : RecommendationRequest) : option (list RankedItem) :=
  let session_context := get_session_context (req_session_id req) db in
  recommend set_order log1p recommender session_context (req_k req)
    (req_exclude_items req).
End service.

End Recommender.

(** ** src/features/feature_builder.py *)

Module FeatureBuilder.

Import Recommender.

(** [numpy.percentile(a, q)] with its default linear interpolation: the value
    at position [q / 100 * (n - 1)] of the sorted data, interpolated between
    the two neighbours. *)
Definition np_percentile (a : list Z) (q : Qc) : Qc :=
  let sorted := merge_sort Z.le a in
  let pos := (q / Qc_of_Z 100 * Qc_of_Z (Z.of_nat (length a) - 1))%Qc in
  let lo := Qfloor pos in
  let below := Qc_of_Z (default 0 (sorted !! Z.to_nat lo)) in
  let above := Qc_of_Z (default 0 (sorted !! Z.to_nat (Z.min (lo + 1) (Z.of_nat (length a) - 1)))) in
  (below + (pos - Qc_of_Z lo) * (above - below))%Qc.

(** [_get_popularity_rank] *)
Definition _get_popularity_rank (item : string) (popularity_dict : list (string * Z)) : Z :=
  let sorted_items := Py.sorted_desc Z.le snd popularity_dict in
  match Py.index item (sorted_items.*1) with
  | Some i => Z.of_nat i + 1
  | None => Z.of_nat (length sorted_items) + 1
  end.

(** The value stored under ['item_popularity_percentile']. The list
    comprehension holds the differences [popularity - v]; [.count(True)]
    counts those equal to [True], that is to [1]. *)
Definition item_popularity_percentile (item : string) (popularity_dict : list (string * Z))
    : Qc :=
  let popularity := Py.dict_get popularity_dict item 0 in
  let all_popularity := popularity_dict.*2 in
  if decide (0 < length all_popularity)%nat then
    let trues := Py.count 1 ((λ v, popularity - v) <$> all_popularity) in
    np_percentile all_popularity
      (Qc_of_Z (Z.of_nat trues) / Qc_of_Z (Z.of_nat (length all_popularity))
       * Qc_of_Z 100)%Qc
  else 0%Qc.

(** The percentile as the design document words it: the number of items
    whose popularity is at most the candidate's, over the number of items,
    times 100. *)
Definition percentile_of_rank (item : string) (popularity_dict : list (string * Z)) : Qc :=
  let popularity := Py.dict_get popularity_dict item 0 in
  let at_most := filter (λ v, v ≤ popularity) (popularity_dict.*2) in
  (Qc_of_Z (Z.of_nat (length at_most))
   / Qc_of_Z (Z.of_nat (length popularity_dict)) * Qc_of_Z 100)%Qc.

Section builder.
Variable log1p : Z → Qc.
Variable set_order : gset string → list string.

(** [build_item_features] of a builder without item metadata, as
    [create_feature_vector] constructs it. *)
Definition build_item_features (item : string) (popularity_dict : list (string * Z))
    : gmap string Qc :=
  let popularity := Py.dict_get popularity_dict item 0 in
  let features : gmap string Qc := ∅ in
  let features := <["item_popularity" := Qc_of_Z popularity]> features in
  let features := <["item_popularity_log" := log1p popularity]> features in
  let features :=
    <["item_popularity_rank" := Qc_of_Z (_get_popularity_rank item popularity_dict)]> features in
  <["item_popularity_percentile" := item_popularity_percentile item popularity_dict]> features.

(** [_get_similarity]: the similarity of the first row that links the two
    items in either direction, else [0.0]. *)
Definition _get_similarity (item1 item2 : string)
    (similarity_matrix : option (list SimilarityRow)) : Qc :=
  match similarity_matrix with
  | None => 0%Qc
  | Some frame =>
      let result :=
        filter (λ row, (item_id_1 row = item1 ∧ item_id_2 row = item2)
                       ∨ (item_id_1 row = item2 ∧ item_id_2 row = item1))
               frame in
      match result with
      | row :: _ => similarity row
      | [] => 0%Qc
      end
  end.

Definition _calculate_last_item_similarity (item last_item : string)
    (similarity_matrix : option (list SimilarityRow)) : Qc :=
  match similarity_matrix with
  | None => 0%Qc
  | Some _ => _get_similarity item last_item similarity_matrix
  end.

(** [build_interaction_features] *)
Definition build_interaction_features (item : string) (session_items : list string)
    (item_similarity_matrix : option (list SimilarityRow)) : gmap string Qc :=
  let features : gmap string Qc := ∅ in
  let features :=
    <["in_session" := if decide (item ∈ session_items) then 1%Qc else 0%Qc]> features in
  let features :=
    match Py.index item (reverse session_items) with
    | Some i =>
        let last_occurrence_idx := Z.of_nat (length session_items) - 1 - Z.of_nat i in
        let features := <["last_seen_position" := Qc_of_Z last_occurrence_idx]> features in
        let features :=
          <["recency_score" :=
              (1 / Qc_of_Z (Z.of_nat (length session_items) - last_occurrence_idx))%Qc]>
            features in
        <["item_frequency_in_session" := Qc_of_Z (Z.of_nat (Py.count item session_items))]>
          features
    | None =>
        let features := <["last_seen_position" := Qc_of_Z (-1)]> features in
        let features := <["recency_score" := 0%Qc]> features in
        <["item_frequency_in_session" := 0%Qc]> features
    end in
  let features :=
    match item_similarity_matrix with
    | Some _ =>
        let similarity_scores :=
          (λ sess_item, _get_similarity item sess_item item_similarity_matrix)
            <$> filter (λ sess_item, sess_item ≠ item)
                       (set_order (list_to_set session_items)) in
        match similarity_scores with
        | s :: rest =>
            let features := <["max_similarity_to_session" := Py.max_of s rest]> features in
            let features :=
              <["mean_similarity_to_session" :=
                  (Py.sum similarity_scores
                   / Qc_of_Z (Z.of_nat (length similarity_scores)))%Qc]> features in
            <["sum_similarity_to_session" := Py.sum similarity_scores]> features
        | [] =>
            let features := <["max_similarity_to_session" := 0%Qc]> features in
            let features := <["mean_similarity_to_session" := 0%Qc]> features in
            <["sum_similarity_to_session" := 0%Qc]> features
        end
    | None => features
    end in
  match last session_items with
  | Some last_item =>
      <["similarity_to_last_item" :=
          _calculate_last_item_similarity item last_item item_similarity_matrix]> features
  | None => features
  end.
End builder.

(** The names [build_interaction_features] can write. *)
Definition interaction_feature_names : list string :=
  ["in_session"; "last_seen_position"; "recency_score"; "item_frequency_in_session";
   "max_similarity_to_session"; "mean_similarity_to_session";
   "sum_similarity_to_session"; "similarity_to_last_item"].

(** *** The other builders *)

Section session_builder.
(** [numpy.log1p] on floats *)
Variable log1p : Qc → Qc.

(** [sum(event_counts.values())] *)
Definition total_of (event_counts : gmap string Z) : Z :=
  map_fold (λ _ v acc, v + acc) 0 event_counts.

(** [build_session_features] *)
Definition build_session_features (session_items : list string)
    (event_counts : gmap string Z) (session_duration_mins : option Qc)
    : gmap string Qc :=
  let features : gmap string Qc := ∅ in
  let len := Z.of_nat (length session_items) in
  let features := <["session_length" := Qc_of_Z len]> features in
  let features := <["session_length_log" := log1p (Qc_of_Z len)]> features in
  let unique_items := Z.of_nat (size (list_to_set session_items : gset string)) in
  let features := <["unique_items" := Qc_of_Z unique_items]> features in
  let features :=
    <["item_repetition_rate" :=
        (1 - Qc_of_Z unique_items / Qc_of_Z (Z.max len 1))%Qc]> features in
  let view_count := default 0 (event_counts !! "view") in
  let click_count := default 0 (event_counts !! "click") in
  let add_to_cart_count := default 0 (event_counts !! "add_to_cart") in
  let purchase_count := default 0 (event_counts !! "purchase") in
  let features := <["view_count" := Qc_of_Z view_count]> features in
  let features := <["click_count" := Qc_of_Z click_count]> features in
  let features := <["add_to_cart_count" := Qc_of_Z add_to_cart_count]> features in
  let features := <["purchase_count" := Qc_of_Z purchase_count]> features in
  let total_events := total_of event_counts in
  let features :=
    if decide (0 < total_events) then
      let features :=
        <["click_through_rate" := (Qc_of_Z click_count / Qc_of_Z total_events)%Qc]>
          features in
      let features :=
        <["add_to_cart_rate" := (Qc_of_Z add_to_cart_count / Qc_of_Z total_events)%Qc]>
          features in
      <["conversion_rate" := (Qc_of_Z purchase_count / Qc_of_Z total_events)%Qc]> features
    else
      let features := <["click_through_rate" := 0%Qc]> features in
      let features := <["add_to_cart_rate" := 0%Qc]> features in
      <["conversion_rate" := 0%Qc]> features in
  let features :=
    <["engagement_score" :=
        Qc_of_Z (view_count * 1 + click_count * 2 + add_to_cart_count * 5
                 + purchase_count * 10)]> features in
  match session_duration_mins with
  | Some duration =>
      let features := <["session_duration_mins" := duration]> features in
      let features := <["session_duration_log" := log1p duration]> features in
      <["events_per_minute" :=
          (Qc_of_Z total_events / Py.max2 duration (Q2Qc 0.1))%Qc]> features
  | None => features
  end.

(** [build_temporal_features] computes sines and cosines of the clock; it
    and the type of timestamps are parameters. *)
Context {Time : Type} (build_temporal_features : Time → Time → gmap string Qc).
Variable set_order : gset string → list string.

(** [build_all_features] of a builder without item metadata; [d.update(e)]
    lets the entries of [e] win. *)
Definition build_all_features (item : string) (session_items : list string)
    (event_counts : gmap string Z) (popularity_dict : list (string * Z))
    (current_time session_start_time : option Time)
    (item_similarity_matrix : option (list SimilarityRow)) : gmap string Qc :=
  let all_features : gmap string Qc := ∅ in
  let session_features := build_session_features session_items event_counts None in
  let all_features := session_features ∪ all_features in
  let item_features :=
    build_item_features (λ n, log1p (Qc_of_Z n)) item popularity_dict in
  let all_features := item_features ∪ all_features in
  let interaction_features :=
    build_interaction_features set_order item session_items item_similarity_matrix in
  let all_features := interaction_features ∪ all_features in
  match current_time, session_start_time with
  | Some now, Some start => build_temporal_features now start ∪ all_features
  | _, _ => all_features
  end.

(** [create_feature_vector]: one row per candidate, its [item_id] beside its
    features. *)
Definition create_feature_vector (candidate_items : list string)
    (session_context : SessionContext) (popularity_dict : list (string * Z))
    (item_similarity_matrix : option (list SimilarityRow))
    : list (string * gmap string Qc) :=
  (λ item,
     (item,
      build_all_features item (recent_items session_context)
        (event_counts session_context) popularity_dict None None
        item_similarity_matrix)) <$> candidate_items.
End session_builder.

(** [BASELINE_FEATURE_SET] of src/features/feature_defs.py *)
Definition BASELINE_FEATURE_SET : list string :=
  ["item_popularity"; "item_popularity_log"; "session_length"; "view_count";
   "click_count"; "in_session"; "recency_score"].

End FeatureBuilder.

(** ** src/utils/helpers.py *)

Module Helpers.

Section diversify.
(** A recommendation dict, seen through the two lookups the function makes:
    [rec.get('score', 0)] and [rec.get(category_key, 'unknown')]. *)
Context {Rec : Type} (score : Rec → option Qc) (category : Rec → option string).

Definition final_score (diversity_weight : Qc) (seen_categories : gset string)
    (rec : Rec) : Qc :=
  let base_score := default 0%Qc (score rec) in
  let cat := default "unknown" (category rec) in
  let diversity_penalty :=
    if decide (cat ∈ seen_categories) then diversity_weight else 0%Qc in
  (base_score * (1 - diversity_penalty))%Qc.

(** The [while remaining] loop; each round moves one element, so as many
    rounds as there are elements empty [remaining]. [None] is an exception
    of [max], [index] or [pop], or a round that was not granted. *)
Fixpoint diversify_loop (rounds : nat) (diversity_weight : Qc)
    (selected remaining : list Rec) (seen_categories : gset string)
    : option (list Rec) :=
  match remaining with
  | [] => Some selected
  | _ :: _ =>
      match rounds with
      | O => None
      | S rounds =>
          let scores := final_score diversity_weight seen_categories <$> remaining in
          best ← Py.max scores;
          best_idx ← Py.index best scores;
          best_rec ← remaining !! best_idx;
          diversify_loop rounds diversity_weight (selected ++ [best_rec])
            (delete best_idx remaining)
            (seen_categories ∪ {[default "unknown" (category best_rec)]})
      end
  end.

Definition diversify_recommendations (recommendations : list Rec)
    (diversity_weight : Qc) : option (list Rec) :=
  match recommendations with
  | [] => Some recommendations
  | _ =>
      if decide (diversity_weight ≤ 0)%Qc then Some recommendations
      else diversify_loop (length recommendations) diversity_weight
             [] recommendations ∅
  end.
End diversify.

(** [batch_items] *)
Definition batch_items {A} (items : list A) (batch_size : Z) : option (list (list A)) :=
  match Py.range_to (length items) batch_size with
  | None => None
  | Some starts => Some ((λ i, Py.slice i (i + batch_size) items) <$> starts)
  end.

(** [normalize_scores] *)
Definition normalize_scores (scores : list Qc) : list Qc :=
  match scores with
  | [] => replicate (length scores) (Q2Qc 0.5)
  | x :: l =>
      if decide (Py.max_of x l = Py.min_of x l)
      then replicate (length scores) (Q2Qc 0.5)
      else
        let min_score := Py.min_of x l in
        let max_score := Py.max_of x l in
        (λ score, ((score - min_score) / (max_score - min_score))%Qc) <$> scores
  end.

(** [calculate_recall_at_k] *)
Definition calculate_recall_at_k (actual predicted : list string) (k : Z) : Qc :=
  if decide (length actual = 0)%nat then 0%Qc
  else
    let predicted_k : gset string := list_to_set (Py.slice_to k predicted) in
    let actual_set : gset string := list_to_set actual in
    let hits := size (predicted_k ∩ actual_set) in
    (Qc_of_Z (Z.of_nat hits) / Qc_of_Z (Z.of_nat (size actual_set)))%Qc.

(** [calculate_precision_at_k] *)
Definition calculate_precision_at_k (actual predicted : list string) (k : Z) : Qc :=
  if decide (k = 0) then 0%Qc
  else
    let predicted_k : gset string := list_to_set (Py.slice_to k predicted) in
    let actual_set : gset string := list_to_set actual in
    let hits := size (predicted_k ∩ actual_set) in
    (Qc_of_Z (Z.of_nat hits) / Qc_of_Z k)%Qc.

(** [RateLimiter]; the reading of [time.time()] is an argument of each
    method. *)
Record RateLimiter := {
  max_calls : Z;
  period_seconds : Z;
  calls : list Qc;
}.

(** [RateLimiter(max_calls, period_seconds)] *)
Definition new_limiter (max_calls period_seconds : Z) : RateLimiter :=
  {| max_calls := max_calls; period_seconds := period_seconds; calls := [] |}.

Definition allow_request (current_time : Qc) (self : RateLimiter) : RateLimiter * bool :=
  let recent :=
    filter (λ t, (current_time - t < Qc_of_Z (period_seconds self))%Qc) (calls self) in
  if decide (Z.of_nat (length recent) < max_calls self)
  then ({| max_calls := max_calls self; period_seconds := period_seconds self;
           calls := recent ++ [current_time] |}, true)
  else ({| max_calls := max_calls self; period_seconds := period_seconds self;
           calls := recent |}, false).

Definition wait_time (current_time : Qc) (self : RateLimiter) : Qc :=
  match calls self with
  | [] => 0%Qc
  | t :: ts =>
      let oldest_call := Py.min_of t ts in
      Py.max2 0%Qc (Qc_of_Z (period_seconds self) - (current_time - oldest_call))%Qc
  end.

End Helpers.

(** ** Concrete inputs *)

Module Examples.
Import Recommender.

(** The [n]-th of a run of view events, one per clock tick. *)
Definition call_of (n : nat) : SessionStore.Call :=
  {| SessionStore.c_item := "prod_" +:+ pretty n; SessionStore.c_type := "view";
     SessionStore.c_timestamp := None; SessionStore.c_metadata := None;
     SessionStore.c_now := Z.of_nat n |}.

(** A recommender with a popularity table only, as after a start without
    ranker and similarity artifacts. *)
Definition popularity_only (table : list (string * Z)) : SessionRecommender :=
  {| model := None; item_similarity := None; item_popularity := table |}.

Definition session_of (recent : list string) : SessionContext :=
  {| recent_items := recent; recent_events := []; event_counts := ∅ |}.

Definition no_log1p (n : Z) : Qc := 0%Qc.

(** Scenario A of the design document, and what it recommends. *)
Definition scenario_self : SessionRecommender :=
  popularity_only [("A", 5); ("B", 3); ("C", 10); ("D", 1)].

Definition scenario_ctx : SessionContext := session_of ["A"; "B"].

Definition scenario_recs : list RankedItem :=
  [ {| ri_item_id := "C"; ri_score := Qc_of_Z 10; ri_reason := recommended; ri_rank := 1 |};
    {| ri_item_id := "D"; ri_score := Qc_of_Z 1; ri_reason := recommended; ri_rank := 2 |} ].

(** A recommender with a similarity frame. *)
Definition row (a b : string) (sim : Q) : SimilarityRow :=
  {| item_id_1 := a; item_id_2 := b; similarity := Q2Qc sim |}.

Definition similarity_frame : list SimilarityRow :=
  [row "A" "C" 0.5; row "A" "D" 0.9; row "B" "C" 0.3; row "A" "E" 0.7].

Definition with_similarity : SessionRecommender :=
  {| model := None; item_similarity := Some similarity_frame;
     item_popularity := [("A", 5); ("B", 3); ("C", 10); ("D", 1)] |}.

(** An order of the members of a sorted set that tells none apart. *)
Definition any_order (e1 e2 : SessionStore.Event) : Prop := True.

Global Instance any_order_dec : RelDecision any_order.
Proof. intros e1 e2. unfold any_order. apply _. Defined.

(** Scenario A as a store: the session saw [B], then [A]. *)
Definition scenario_db : SessionStore.Db :=
  SessionStore.record_events "S" SessionStore.empty_db
    [ {| SessionStore.c_item := "B"; SessionStore.c_type := "view";
         SessionStore.c_timestamp := None; SessionStore.c_metadata := None;
         SessionStore.c_now := 1 |};
      {| SessionStore.c_item := "A"; SessionStore.c_type := "click";
         SessionStore.c_timestamp := None; SessionStore.c_metadata := None;
         SessionStore.c_now := 2 |} ].

Definition scenario_request : RecommendationRequest :=
  {| req_session_id := "S"; req_k := 5; req_exclude_items := None |}.


(** An object left without popularity table by a failed load. *)
Definition unloaded : Instance.Attributes :=
  {| Instance.model := None; Instance.item_similarity := None;
     Instance.item_popularity := None |}.

End Examples.

(** * Properties *)

(** ** Slices, enumeration and the stable sort *)

Section py_facts.
Context {A : Type}.
Implicit Types l : list A.

Lemma slice_to_length_le (k : Z) l : 0 ≤ k → Z.of_nat (length (Py.slice_to k l)) ≤ k.
Proof.
  intros Hk. unfold Py.slice_to. rewrite decide_True by done.
  rewrite length_take. lia.
Qed.

Lemma slice_to_sublist (k : Z) l : Py.slice_to k l `sublist_of` l.
Proof. unfold Py.slice_to. case_decide; apply sublist_take. Qed.

Lemma slice_to_all (k : Z) l : Z.of_nat (length l) ≤ k → Py.slice_to k l = l.
Proof.
  intros Hk. unfold Py.slice_to. rewrite decide_True by lia.
  apply take_ge. lia.
Qed.


Lemma enumerate_length (start : Z) l : length (Py.enumerate start l) = length l.
Proof. revert start. induction l; intros; simpl; auto. Qed.
End py_facts.

Section sort_facts.
Context {A K : Type} (le : K → K → Prop) `{!RelDecision le} (key : A → K).
Implicit Types l : list A.

Lemma insert_desc_perm x l : Py.insert_desc le key x l ≡ₚ x :: l.
Proof.
  induction l as [|y l IH]; [done|]. simpl. case_decide; [done|].
  rewrite IH. apply Permutation_swap.
Qed.

Lemma sorted_desc_perm l : Py.sorted_desc le key l ≡ₚ l.
Proof.
  induction l as [|x l IH]; [done|].
  cbn [Py.sorted_desc foldr]. rewrite insert_desc_perm. by f_equiv.
Qed.

Lemma sorted_desc_length l : length (Py.sorted_desc le key l) = length l.
Proof. by rewrite sorted_desc_perm. Qed.

(** The sort is stable: entries with one key keep their order. *)
Lemma insert_desc_stable `{!Reflexive le} (P : A → Prop) `{!∀ a, Decision (P a)} x l :
  (∀ a b, P a → P b → key a = key b) →
  (∀ a b, P a → key a = key b → P b) →
  filter P (Py.insert_desc le key x l) = filter P (x :: l).
Proof.
  intros Hkey Hcl. induction l as [|y l IH]; [done|].
  simpl. case_decide as Hle; [done|].
  rewrite filter_cons, IH, !filter_cons.
  destruct (decide (P y)) as [Hy|Hy], (decide (P x)) as [Hx|Hx]; try done.
  destruct Hle. rewrite (Hkey y x) by done. reflexivity.
Qed.

Lemma sorted_desc_stable `{!Reflexive le} (P : A → Prop) `{!∀ a, Decision (P a)} l :
  (∀ a b, P a → P b → key a = key b) →
  (∀ a b, P a → key a = key b → P b) →
  filter P (Py.sorted_desc le key l) = filter P l.
Proof.
  intros Hkey Hcl. induction l as [|x l IH]; [done|].
  cbn [Py.sorted_desc foldr]. rewrite insert_desc_stable by done.
  fold (Py.sorted_desc le key l). by rewrite !filter_cons, IH.
Qed.

Lemma insert_desc_sorted `{!Total le, !Transitive le} x l :
  StronglySorted (λ a b, le (key b) (key a)) l →
  StronglySorted (λ a b, le (key b) (key a)) (Py.insert_desc le key x l).
Proof.
  induction 1 as [|y l Hl IH Hy]; simpl.
  - repeat constructor.
  - case_decide as Hle.
    + constructor; [by constructor|]. constructor; [done|].
      eapply Forall_impl; [exact Hy|]. intros z Hz. simpl in Hz. by etrans.
    + constructor; [done|].
      rewrite insert_desc_perm. constructor; [|done].
      destruct (total le (key x) (key y)); [done|by destruct Hle].
Qed.

Lemma sorted_desc_sorted `{!Total le, !Transitive le} l :
  StronglySorted (λ a b, le (key b) (key a)) (Py.sorted_desc le key l).
Proof.
  induction l as [|x l IH]; [constructor|].
  cbn [Py.sorted_desc foldr]. by apply insert_desc_sorted.
Qed.
End sort_facts.

(** ** Session store *)

Module SessionStoreFacts.
Import SessionStore Examples.

Lemma range_0_99 {A} (l : list A) : Redis.range 0 99 l = take 100 l.
Proof. reflexivity. Qed.

Lemma record_event_recency sid db c :
  recency_list sid (record_event sid db c) = take 100 (c_item c :: recency_list sid db).
Proof.
  unfold record_event, add_event, recency_list. cbn -[take Redis.range].
  rewrite !lookup_insert_eq. cbn -[take Redis.range]. apply range_0_99.
Qed.

Lemma take_app_take {A} (n : nat) (l1 l2 : list A) :
  take n (l1 ++ take n l2) = take n (l1 ++ l2).
Proof.
  rewrite !take_app. f_equal. rewrite take_take. f_equal. lia.
Qed.

(** The recency list after a run of calls: the items of the calls, latest
    first, before the earlier content, cut at 100. *)
Lemma record_events_recency sid db cs :
  (length (recency_list sid db) ≤ 100)%nat →
  recency_list sid (record_events sid db cs)
  = take 100 (reverse (c_item <$> cs) ++ recency_list sid db).
Proof.
  revert db. induction cs as [|c cs IH]; intros db Hdb.
  - simpl. by rewrite take_ge.
  - change (record_events sid db (c :: cs))
      with (record_events sid (record_event sid db c) cs).
    rewrite IH; rewrite record_event_recency.
    + rewrite take_app_take, fmap_cons, reverse_cons, <-app_assoc. done.
    + rewrite length_take. lia.
Qed.

(** C8. Whatever calls are recorded on a session whose recency list holds at
    most 100 entries, the list still holds at most 100 entries afterwards; it
    is the items of the calls, latest first, followed by the earlier entries,
    cut at 100, so its head is the item of the last call; and after 150 calls
    it holds exactly 100 entries. *)
Theorem recency_list_capped sid db cs :
  (length (recency_list sid db) ≤ 100)%nat →
  let after := recency_list sid (record_events sid db cs) in
  (length after ≤ 100)%nat
  ∧ after = take 100 (reverse (c_item <$> cs) ++ recency_list sid db)
  ∧ (∀ c, last cs = Some c → head after = Some (c_item c))
  ∧ (length cs = 150%nat → length after = 100%nat).
Proof.
  intros Hdb after. subst after. rewrite record_events_recency by done.
  split_and!.
  - rewrite length_take. lia.
  - done.
  - intros c Hc. destruct cs as [|c0 cs _] using rev_ind; [done|].
    rewrite last_snoc in Hc. injection Hc as ->.
    by rewrite fmap_app, reverse_app.
  - intros Hcs. rewrite length_take, length_app, length_reverse, length_fmap. lia.
Qed.

Lemma recency_list_capped_witness :
  let after := recency_list "s" (record_events "s" empty_db (call_of <$> seq 0 150)) in
  (length after ≤ 100)%nat
  ∧ head after = Some "prod_149"
  ∧ length after = 100%nat.
Proof.
  pose proof (recency_list_capped "s" empty_db (call_of <$> seq 0 150)) as H.
  destruct H as (Hle & _ & Hhead & Hlen).
  - vm_compute. lia.
  - split_and!.
    + exact Hle.
    + apply (Hhead (call_of 149)). vm_compute. reflexivity.
    + apply Hlen. vm_compute. reflexivity.
Defined.

End SessionStoreFacts.

(** ** Recommender *)

Module RecommenderFacts.
Import Recommender Examples.

Lemma listing_first_iteration first : set_iteration (listing_first first).
Proof.
  intros s. unfold listing_first. apply NoDup_Permutation.
  - apply NoDup_app. split_and!.
    + apply NoDup_filter, NoDup_remove_dups.
    + intros x [_ Hx]%list_elem_of_filter [Hn _]%list_elem_of_filter.
      by apply Hn, elem_of_remove_dups.
    + apply NoDup_filter, NoDup_elements.
  - apply NoDup_elements.
  - intros x. rewrite elem_of_app, !list_elem_of_filter, elem_of_remove_dups, elem_of_elements.
    destruct (decide (x ∈ first)); tauto.
Qed.

Lemma elements_iteration : set_iteration elements.
Proof. intros s. reflexivity. Qed.

Section ranking.
Variable log1p : Z → Qc.

Lemma build_features_fst self cands ctx :
  (build_features log1p self cands ctx).*1 = cands.
Proof.
  unfold build_features. rewrite <-list_fmap_compose.
  rewrite <-(list_fmap_id cands) at 2. by apply list_fmap_ext.
Qed.

Lemma build_features_reason self cands ctx row :
  row ∈ build_features log1p self cands ctx →
  _get_reason row.2
  = reason_of (bool_decide (row.1 ∈ recent_items ctx))
              (Py.dict_get (item_popularity self) row.1 0).
Proof.
  unfold build_features. intros (item & -> & _)%list_elem_of_fmap.
  unfold _get_reason, reason_of. cbn.
  destruct (decide (item ∈ recent_items ctx)) as [Hin|Hin].
  - by rewrite decide_True, bool_decide_eq_true_2.
  - rewrite decide_False, (bool_decide_eq_false_2 _ Hin) by done.
    case_decide; [by rewrite bool_decide_eq_true_2|by rewrite bool_decide_eq_false_2].
Qed.

(** What [rank_candidates] returns: the stable descending sort of the
    scored rows. *)
Lemma rank_candidates_Some self cands ctx res :
  rank_candidates log1p self cands ctx = Some res →
  ∃ scores,
    res = Py.sorted_desc Qcle (λ x, x.1.2)
            (zip_with (λ row score, (row.1, score, _get_reason row.2))
                      (build_features log1p self cands ctx) scores).
Proof.
  unfold rank_candidates. intros H.
  destruct (model self) as [predict|]; simplify_option_eq; eauto.
Qed.
Lemma scored_rows_items {R} (g : R → string) (h : R → Reason) (rows : list R)
    (scores : list Qc) :
  (zip_with (λ row score, (g row, score, h row)) rows scores).*1.*1
    `sublist_of` (g <$> rows).
Proof.
  revert scores. induction rows as [|row rows IH]; intros [|score scores]; simpl.
  - constructor.
  - constructor.
  - apply sublist_nil_l.
  - constructor. apply IH.
Qed.

(** Without a ranker every non-empty candidate list is ranked, and the
    ranking holds the candidates, each with its popularity as score. *)
Lemma rank_candidates_fallback_total self cands ctx :
  model self = None → cands ≠ [] →
  ∃ res, rank_candidates log1p self cands ctx = Some res
         ∧ res.*1 ≡ₚ (λ item, (item, Qc_of_Z (Py.dict_get (item_popularity self) item 0)))
                       <$> cands.
Proof.
  intros Hm Hc. unfold rank_candidates. rewrite Hm.
  destruct (build_features log1p self cands ctx) as [|row rows] eqn:E.
  { destruct cands; [done|discriminate]. }
  rewrite <-E. cbn [mbind option_bind]. eexists; split; [done|].
  rewrite sorted_desc_perm. unfold build_features.
  clear. induction cands as [|c cands IH]; [done|]. cbn. by rewrite IH.
Qed.

(** C4 (amended). Whatever [rank_candidates] returns is sorted by
    descending score, and the entries of one score stand in the order the
    candidate list gave them: their items form a subsequence of the
    candidate list. *)
Theorem rank_candidates_sorted_stable self cands ctx res :
  rank_candidates log1p self cands ctx = Some res →
  StronglySorted score_desc res
  ∧ ∀ v, (filter (λ x, x.1.2 = v) res).*1.*1 `sublist_of` cands.
Proof.
  intros (scores & ->)%rank_candidates_Some. split.
  - apply (sorted_desc_sorted Qcle (λ x : string * Qc * Reason, x.1.2)).
  - intros v. rewrite sorted_desc_stable; [|exact Qcle_refl|intros; simpl in *; congruence..].
    etrans; [|etrans; [apply (scored_rows_items fst (λ row, _get_reason row.2))|]].
    + do 2 apply fmap_sublist. apply sublist_filter.
    + by rewrite build_features_fst.
Qed.

(** C7. Every entry that [rank_candidates] returns carries the reason
    [viewed_recently] when its item is among the recent items of the
    session, else [popular] when the popularity count of the item exceeds
    1000, else [recommended]. *)
Theorem rank_candidates_reason self cands ctx res item score reason :
  rank_candidates log1p self cands ctx = Some res →
  (item, score, reason) ∈ res →
  reason = reason_of (bool_decide (item ∈ recent_items ctx))
                     (Py.dict_get (item_popularity self) item 0).
Proof.
  intros (scores & ->)%rank_candidates_Some. rewrite sorted_desc_perm.
  intros (row & sc & [= -> -> ->] & Hrow & _)%elem_of_zip_with.
  by eapply build_features_reason.
Qed.
End ranking.

Section candidates.
Variable set_order : gset string → list string.

Lemma elem_of_foldl_union (f : string → list string) (c0 : gset string) l x :
  x ∈ foldl (λ c item, c ∪ list_to_set (f item)) c0 l
  ↔ x ∈ c0 ∨ ∃ item, item ∈ l ∧ x ∈ f item.
Proof.
  revert c0. induction l as [|i l IH]; intros c0; simpl.
  - split; [auto|]. intros [?|(? & []%elem_of_nil & _)]; done.
  - rewrite IH, elem_of_union, elem_of_list_to_set. split.
    + intros [[?|?]|(j & ? & ?)]; [by left|right; exists i|right; exists j];
        split; try done; by constructor.
    + intros [?|(j & [->|?]%elem_of_cons & ?)]; [by do 2 left|by left; right|].
      right. by exists j.
Qed.

(** The set after the similarity strategy: the similar items of the five
    most recent session items. *)
Lemma elem_of_similar_candidates self ctx x :
  x ∈ similar_candidates self ctx
  ↔ ∃ item, item ∈ take 5 (recent_items ctx) ∧ x ∈ _get_similar_items self item 20.
Proof.
  unfold similar_candidates.
  destruct (item_similarity self) as [frame|] eqn:E.
  - case_decide as Hlen.
    + rewrite elem_of_foldl_union. change (Py.slice_to 5 ?l) with (take 5 l).
      set_solver.
    + destruct (recent_items ctx); [|simpl in Hlen; lia]. set_solver.
  - unfold _get_similar_items, similar_df. rewrite E. set_solver.
Qed.

(** The set after both strategies and the two removals. *)
Lemma elem_of_filtered_candidates self ctx excl x :
  x ∈ filtered_candidates self ctx excl
  ↔ (((∃ item, item ∈ take 5 (recent_items ctx) ∧ x ∈ _get_similar_items self item 20)
      ∨ x ∈ (popular_items self).*1)
     ∧ (x ∉ recent_items ctx) ∧ (x ∉ default [] excl)).
Proof.
  unfold filtered_candidates. rewrite <-elem_of_similar_candidates.
  destruct (item_popularity self) as [|p table] eqn:E.
  - unfold popular_items. rewrite E. set_solver.
  - set_solver.
Qed.

Lemma candidate_set_cases self ctx k excl :
  (filtered_candidates self ctx excl ≠ ∅
   ∧ candidate_set self ctx k excl = filtered_candidates self ctx excl)
  ∨ (filtered_candidates self ctx excl = ∅
     ∧ candidate_set self ctx k excl
       = list_to_set (Py.slice_to k ((item_popularity self).*1))).
Proof.
  unfold candidate_set. case_decide as Hsize.
  - right. by apply size_empty_inv, leibniz_equiv in Hsize.
  - left. split; [|done]. intros Hempty. by rewrite Hempty, size_empty in Hsize.
Qed.

Lemma generate_candidates_sublist self ctx k excl :
  generate_candidates set_order self ctx k excl
    `sublist_of` set_order (candidate_set self ctx k excl).
Proof. apply slice_to_sublist. Qed.

Lemma elem_of_generate_candidates self ctx k excl x :
  set_iteration set_order →
  x ∈ generate_candidates set_order self ctx k excl →
  x ∈ candidate_set self ctx k excl.
Proof.
  intros Hord Hx. apply elem_of_elements. rewrite <-(Hord _).
  eapply elem_of_sublist; [exact Hx|apply generate_candidates_sublist].
Qed.

(** C3 (amended). When some candidate survives the removal of the session
    and excluded items, no returned item is a recent item of the session or
    an excluded item. When none survives, the returned items are among the
    first [k] keys of the popularity table, recent or excluded or not. *)
Theorem candidates_avoid_session_unless_fallback self ctx k excl :
  set_iteration set_order →
  let out := generate_candidates set_order self ctx k excl in
  (filtered_candidates self ctx excl ≠ ∅ →
     ∀ x, x ∈ out → (x ∉ recent_items ctx) ∧ (x ∉ default [] excl))
  ∧ (filtered_candidates self ctx excl = ∅ →
     ∀ x, x ∈ out → x ∈ Py.slice_to k ((item_popularity self).*1)).
Proof.
  intros Hord out. subst out. split.
  - intros Hne x Hx%elem_of_generate_candidates; [|done].
    destruct (candidate_set_cases self ctx k excl) as [[_ Heq]|[? _]]; [|done].
    rewrite Heq, elem_of_filtered_candidates in Hx. tauto.
  - intros He x Hx%elem_of_generate_candidates; [|done].
    destruct (candidate_set_cases self ctx k excl) as [[? _]|[_ Heq]]; [done|].
    by rewrite Heq, elem_of_list_to_set in Hx.
Qed.

(** C1 (amended). The returned sequence lists members of the candidate
    set, none twice, in the order in which the set is iterated, cut at the
    pool size: it is all of the set when the pool size allows, at most
    [k] items for [k] not negative; and the set, unless the fallback
    applies, is made of the similar items of the five most recent session
    items and of the fifty most popular items, less the recent and the
    excluded items. *)
Theorem candidates_list_the_candidate_set self ctx k excl :
  set_iteration set_order →
  let cset := candidate_set self ctx k excl in
  let out := generate_candidates set_order self ctx k excl in
  NoDup out
  ∧ out `sublist_of` set_order cset
  ∧ (∀ x, x ∈ out → x ∈ cset)
  ∧ (0 ≤ k → Z.of_nat (length out) ≤ k)
  ∧ (Z.of_nat (size cset) ≤ k → out ≡ₚ elements cset)
  ∧ (filtered_candidates self ctx excl ≠ ∅ →
     ∀ x, x ∈ cset ↔
       (((∃ item, item ∈ take 5 (recent_items ctx)
                  ∧ x ∈ _get_similar_items self item 20)
         ∨ x ∈ (popular_items self).*1)
        ∧ (x ∉ recent_items ctx) ∧ (x ∉ default [] excl))).
Proof.
  intros Hord cset out. subst cset out. split_and!.
  - eapply sublist_NoDup; [|apply generate_candidates_sublist].
    rewrite (Hord _). apply NoDup_elements.
  - apply generate_candidates_sublist.
  - intros x. by apply elem_of_generate_candidates.
  - intros Hk. by apply slice_to_length_le.
  - intros Hsize. unfold generate_candidates.
    rewrite slice_to_all; [apply Hord|].
    by rewrite (Hord _).
  - intros Hne x.
    destruct (candidate_set_cases self ctx k excl) as [[_ ->]|[? _]]; [|done].
    apply elem_of_filtered_candidates.
Qed.
End candidates.


(** Scenarios A and C of the design document: the session saw [A] and [B];
    in scenario C the request excludes [C]. *)
Lemma scenarios_A_C :
  let self := popularity_only [("A", 5); ("B", 3); ("C", 10); ("D", 1)] in
  let ctx := session_of ["A"; "B"] in
  candidate_set self ctx 100 None = {["C"; "D"]}
  ∧ rank_candidates no_log1p self ["D"; "C"] ctx
    = Some [("C", Qc_of_Z 10, recommended); ("D", Qc_of_Z 1, recommended)]
  ∧ candidate_set self ctx 100 (Some ["C"]) = {["D"]}.
Proof. split_and!; vm_compute; reflexivity. Qed.

(** C1, refuted as stated: a set of two popularity-sourced candidates may be
    listed with the less popular one first. *)
Lemma candidates_order_counterexample :
  let self := popularity_only [("a", 1); ("b", 5)] in
  let ctx := session_of [] in
  set_iteration (listing_first ["a"; "b"])
  ∧ generate_candidates (listing_first ["a"; "b"]) self ctx 100 None = ["a"; "b"]
  ∧ ¬ StronglySorted (candidate_before self ctx) ["a"; "b"].
Proof.
  split_and!.
  - apply listing_first_iteration.
  - vm_compute. reflexivity.
  - intros H. inversion H as [|? ? _ Hall]; subst.
    inversion Hall as [|? ? Hab _]; subst.
    vm_compute in Hab. destruct Hab as [?|[? _]]; done.
Qed.

(** C3, refuted as stated: when the session saw the only popular item, the
    fallback returns that very item. *)
Lemma candidates_fallback_counterexample :
  let self := popularity_only [("a", 1)] in
  let ctx := session_of ["a"] in
  set_iteration elements
  ∧ generate_candidates elements self ctx 100 None = ["a"]
  ∧ "a" ∈ recent_items ctx.
Proof.
  split_and!.
  - apply elements_iteration.
  - vm_compute. reflexivity.
  - simpl. apply list_elem_of_here.
Qed.

(** C4, refuted as stated: two candidates of equal score stay in the order
    of the candidate list, here [b] before [a]. *)
Lemma rank_candidates_tie_counterexample :
  let self := popularity_only [("a", 7); ("b", 7)] in
  let ctx := session_of [] in
  let res := [("b", Qc_of_Z 7, recommended); ("a", Qc_of_Z 7, recommended)] in
  generate_candidates (listing_first ["b"; "a"]) self ctx 100 None = ["b"; "a"]
  ∧ rank_candidates no_log1p self ["b"; "a"] ctx = Some res
  ∧ ¬ StronglySorted score_desc_then_id res.
Proof.
  split_and!.
  - vm_compute. reflexivity.
  - vm_compute. reflexivity.
  - intros H. inversion H as [|? ? _ Hall]; subst.
    inversion Hall as [|? ? Hab _]; subst.
    destruct Hab as [Hlt|[_ Hle]].
    + by apply Qclt_not_le in Hlt.
    + vm_compute in Hle. done.
Qed.

Lemma candidates_list_the_candidate_set_witness :
  let self := popularity_only [("A", 5); ("B", 3); ("C", 10); ("D", 1)] in
  let ctx := session_of ["A"; "B"] in
  let out := generate_candidates elements self ctx 100 None in
  NoDup out ∧ (∀ x, x ∈ out → x ∈ candidate_set self ctx 100 None)
  ∧ Z.of_nat (length out) ≤ 100 ∧ out ≡ₚ elements (candidate_set self ctx 100 None).
Proof.
  intros self ctx out.
  destruct (candidates_list_the_candidate_set elements self ctx 100 None
              elements_iteration) as (Hnd & _ & Hin & Hlen & Hall & _).
  split_and!; [exact Hnd|exact Hin|apply Hlen; lia|apply Hall].
  vm_compute. discriminate.
Defined.


Lemma candidates_avoid_session_unless_fallback_witness :
  let self := popularity_only [("A", 5); ("B", 3); ("C", 10); ("D", 1)] in
  let ctx := session_of ["A"; "B"] in
  ("C" ∉ recent_items ctx) ∧ ("C" ∉ default [] (Some ["D"])).
Proof.
  intros self ctx.
  destruct (candidates_avoid_session_unless_fallback elements self ctx 100 (Some ["D"])
              elements_iteration) as [Hfiltered _].
  apply Hfiltered.
  - intros Hempty.
    assert (Hc : "C" ∈ filtered_candidates self ctx (Some ["D"])).
    { apply (bool_decide_unpack _). vm_compute. exact I. }
    rewrite Hempty in Hc. by apply not_elem_of_empty in Hc.
  - apply (bool_decide_unpack _). vm_compute. exact I.
Defined.

Lemma rank_candidates_sorted_stable_witness :
  let res := [("C", Qc_of_Z 10, recommended); ("D", Qc_of_Z 1, recommended)] in
  StronglySorted score_desc res
  ∧ ∀ v, (filter (λ x, x.1.2 = v) res).*1.*1 `sublist_of` ["D"; "C"].
Proof.
  apply (rank_candidates_sorted_stable no_log1p
           (popularity_only [("A", 5); ("B", 3); ("C", 10); ("D", 1)])
           ["D"; "C"] (session_of ["A"; "B"])).
  vm_compute. reflexivity.
Defined.

(** Scenario D of the design document. *)
Lemma rank_candidates_reason_witness :
  popular = reason_of (bool_decide ("C" ∈ recent_items (session_of ["A"])))
                      (Py.dict_get (item_popularity (popularity_only [("C", 1500)])) "C" 0).
Proof.
  apply (rank_candidates_reason no_log1p (popularity_only [("C", 1500)]) ["C"]
           (session_of ["A"]) [("C", Qc_of_Z 1500, popular)] "C" (Qc_of_Z 1500) popular).
  - vm_compute. reflexivity.
  - apply list_elem_of_here.
Defined.

End RecommenderFacts.

(** ** Feature builder *)

Module FeatureBuilderFacts.
Import Recommender FeatureBuilder.

Section interaction.
Variable set_order : gset string → list string.

(** The names written: four always, three with similarity data, one with
    a non-empty session. *)
Lemma build_interaction_features_dom item session sim :
  dom (build_interaction_features set_order item session sim)
  = list_to_set ["in_session"; "last_seen_position"; "recency_score";
                 "item_frequency_in_session"]
    ∪ match sim with
      | Some _ => list_to_set ["max_similarity_to_session";
                               "mean_similarity_to_session";
                               "sum_similarity_to_session"]
      | None => ∅
      end
    ∪ match session with
      | [] => ∅
      | _ :: _ => {["similarity_to_last_item"]}
      end.
Proof.
  unfold build_interaction_features.
  destruct (last session) as [last_item|] eqn:Hlast.
  - destruct session as [|s0 session]; [done|]. clear Hlast.
    destruct (Py.index item (reverse (s0 :: session))), sim as [m|];
      [destruct (_ <$> filter _ _)| |destruct (_ <$> filter _ _)|];
      rewrite !dom_insert_L, dom_empty_L; set_solver.
  - apply last_None in Hlast as ->.
    destruct (Py.index item (reverse [])), sim as [m|];
      [destruct (_ <$> filter _ _)| |destruct (_ <$> filter _ _)|];
      rewrite !dom_insert_L, dom_empty_L; set_solver.
Qed.

End interaction.

(** C5. The two families of similarity features are not defaulted alike.
    For a session [a] and no similarity data the similarity to the last item
    is written as 0 while the three aggregates are left out; for an empty
    session and a similarity frame the three aggregates are written as 0
    while the similarity to the last item is left out. All four names belong
    to the schema of the interaction features. *)
Theorem interaction_similarity_defaults_incomplete :
  let no_data := build_interaction_features elements "c" ["a"] None in
  let no_session :=
    build_interaction_features elements "c" [] (Some Examples.similarity_frame) in
  (∀ name, name ∈ ["max_similarity_to_session"; "mean_similarity_to_session";
                   "sum_similarity_to_session"; "similarity_to_last_item"] →
     name ∈ interaction_feature_names)
  ∧ no_data !! "similarity_to_last_item" = Some 0%Qc
  ∧ no_data !! "max_similarity_to_session" = None
  ∧ no_data !! "mean_similarity_to_session" = None
  ∧ no_data !! "sum_similarity_to_session" = None
  ∧ no_session !! "max_similarity_to_session" = Some 0%Qc
  ∧ no_session !! "mean_similarity_to_session" = Some 0%Qc
  ∧ no_session !! "sum_similarity_to_session" = Some 0%Qc
  ∧ no_session !! "similarity_to_last_item" = None.
Proof.
  intros no_data no_session. split.
  - intros name Hname. unfold interaction_feature_names.
    repeat (apply elem_of_cons in Hname as [->|Hname]);
      [..|by apply elem_of_nil in Hname];
      apply (bool_decide_unpack _); vm_compute; exact I.
  - repeat split; vm_compute; reflexivity.
Qed.

(** C6. On the table [a: 1, b: 2] the percentile feature of [b] is 3/2,
    where the share of items at most as popular as [b] is 100; on the
    one-item table [a: 1500] the feature of [a] is 1500, beyond any
    percentage. *)
Theorem percentile_is_not_the_rank_share :
  item_popularity_percentile "b" [("a", 1); ("b", 2)] = Q2Qc (3 # 2)
  ∧ percentile_of_rank "b" [("a", 1); ("b", 2)] = Qc_of_Z 100
  ∧ item_popularity_percentile "a" [("a", 1500)] = Qc_of_Z 1500
  ∧ percentile_of_rank "a" [("a", 1500)] = Qc_of_Z 100.
Proof.
  split_and!; apply Qc_is_canon; vm_compute; reflexivity.
Qed.

End FeatureBuilderFacts.

(** ** Diversity re-ranking *)

Module HelpersFacts.
Import Helpers.

Lemma index_elem_of {A} `{EqDecision A} (x : A) (l : list A) :
  x ∈ l → ∃ i, Py.index x l = Some i ∧ l !! i = Some x.
Proof.
  induction l as [|y l IH]; [by intros ?%elem_of_nil|].
  intros Hx. simpl. case_decide as Hy.
  - subst. by exists 0%nat.
  - apply elem_of_cons in Hx as [->|Hx]; [done|].
    destruct (IH Hx) as (i & -> & Hi). by exists (S i).
Qed.

Lemma max_of_elem_of (x : Qc) (l : list Qc) : Py.max_of x l ∈ x :: l.
Proof.
  unfold Py.max_of. revert x. induction l as [|y l IH]; intros x; simpl.
  - apply list_elem_of_here.
  - specialize (IH (if decide (x < y)%Qc then y else x)).
    apply elem_of_cons in IH as [->|IH].
    + case_decide; [apply list_elem_of_further|]; apply list_elem_of_here.
    + by do 2 apply list_elem_of_further.
Qed.

Section diversify.
Context {Rec : Type} (score : Rec → option Qc) (category : Rec → option string).

(** The loop ends within as many rounds as there are remaining elements,
    and hands back the selected elements followed by the remaining ones in
    some order. *)
Lemma diversify_loop_permutation rounds w selected remaining seen :
  (length remaining ≤ rounds)%nat →
  ∃ out, diversify_loop score category rounds w selected remaining seen = Some out
         ∧ out ≡ₚ selected ++ remaining.
Proof.
  revert selected remaining seen.
  induction rounds as [|rounds IH]; intros selected remaining seen Hlen.
  - destruct remaining; [|simpl in Hlen; lia].
    exists selected. by rewrite app_nil_r.
  - destruct remaining as [|rec remaining]; [exists selected; by rewrite app_nil_r|].
    cbn [diversify_loop fmap list_fmap]. change (list_fmap ?f ?l) with (f <$> l).
    destruct (index_elem_of _ _ (max_of_elem_of
                (final_score score category w seen rec)
                (final_score score category w seen <$> remaining)))
      as (i & Hidx & Hi).
    unfold Py.max. cbn [mbind option_bind]. rewrite Hidx. cbn [mbind option_bind].
    destruct (lookup_lt_is_Some_2 (rec :: remaining) i) as [best Hbest].
    { apply lookup_lt_Some in Hi. by rewrite length_cons, length_fmap in Hi. }
    rewrite Hbest. cbn [mbind option_bind].
    destruct (IH (selected ++ [best]) (delete i (rec :: remaining))
                 (seen ∪ {[default "unknown" (category best)]})) as (out & -> & Hout).
    { rewrite length_delete by eauto. simpl in *. lia. }
    exists out. split; [done|].
    rewrite Hout, <-app_assoc. f_equiv. simpl.
    symmetry. by apply delete_Permutation.
Qed.

(** C9. With diversity weight 0 the list is returned as it is. *)
Theorem diversify_weight_zero_identity (recommendations : list Rec) :
  diversify_recommendations score category recommendations 0%Qc = Some recommendations.
Proof. by destruct recommendations. Qed.

(** C10. For every list and every weight the re-ranker returns, and what
    it returns is a permutation of the list: the same elements, as many
    times each, hence the same length. *)
Theorem diversify_permutation (recommendations : list Rec) (w : Qc) :
  ∃ out, diversify_recommendations score category recommendations w = Some out
         ∧ out ≡ₚ recommendations
         ∧ length out = length recommendations.
Proof.
  unfold diversify_recommendations.
  destruct recommendations as [|rec recs]; [by exists []|].
  case_decide; [by eexists|].
  destruct (diversify_loop_permutation (length (rec :: recs)) w [] (rec :: recs) ∅)
    as (out & -> & Hout); [done|].
  exists out. split_and!; [done|done|by rewrite Hout].
Qed.
End diversify.

End HelpersFacts.

(** * Further properties *)

(** ** Lists and strings *)

Section more_list_facts.
Context {A : Type} `{EqDecision A}.
Implicit Types l : list A.

Lemma index_Some (x : A) l i :
  Py.index x l = Some i → l !! i = Some x ∧ ∀ j, (j < i)%nat → l !! j ≠ Some x.
Proof.
  revert i. induction l as [|y l IH]; intros i; [done|].
  simpl. case_decide as Hy.
  - intros [= <-]. split; [by subst|]. intros j Hj. lia.
  - destruct (Py.index x l) as [i'|]; [|done]. intros [= <-].
    destruct (IH i' eq_refl) as [Hi Hfirst]. split; [done|].
    intros [|j] Hj; simpl; [congruence|]. apply Hfirst. lia.
Qed.

Lemma index_None (x : A) l : Py.index x l = None ↔ x ∉ l.
Proof.
  induction l as [|y l IH]; simpl.
  - split; [intros _; apply not_elem_of_nil|done].
  - case_decide as Hy.
    + subst. split; [done|]. intros []. apply list_elem_of_here.
    + rewrite not_elem_of_cons, <-IH. destruct (Py.index x l); naive_solver.
Qed.

Lemma index_is_Some (x : A) l : is_Some (Py.index x l) ↔ x ∈ l.
Proof.
  rewrite <-not_eq_None_Some, index_None. destruct (decide (x ∈ l)); tauto.
Qed.
End more_list_facts.

Lemma string_app_inj_r (s1 s2 t : string) : s1 +:+ t = s2 +:+ t → s1 = s2.
Proof.
  assert (Happ : ∀ a b, String.list_ascii_of_string (a +:+ b)
                        = String.list_ascii_of_string a ++ String.list_ascii_of_string b).
  { intros a b. induction a as [|c a IH]; simpl; [done|]. by rewrite IH. }
  intros H%(f_equal String.list_ascii_of_string). rewrite !Happ in H.
  apply app_inv_tail in H.
  by rewrite <-(String.string_of_list_ascii_of_string s1), H,
       String.string_of_list_ascii_of_string.
Qed.

(** ** Session store, continued *)

Module StoreFacts.
Import SessionStore Examples.

Lemma items_key_inj s1 s2 : items_key s1 = items_key s2 → s1 = s2.
Proof. unfold items_key. intros H. simplify_eq/=. by eapply string_app_inj_r. Qed.

Lemma events_key_inj s1 s2 : events_key s1 = events_key s2 → s1 = s2.
Proof. unfold events_key. intros H. simplify_eq/=. by eapply string_app_inj_r. Qed.

Lemma counters_key_inj s1 s2 : counters_key s1 = counters_key s2 → s1 = s2.
Proof. unfold counters_key. intros H. simplify_eq/=. by eapply string_app_inj_r. Qed.

Lemma filter_other_members (e : Event) (l : list (Event * Z)) :
  NoDup l.*1 →
  (length (filter (λ p, p.1 ≠ e) l) + (if decide (e ∈ l.*1) then 1 else 0))%nat = length l.
Proof.
  induction l as [|[m sc] l IH]; [done|].
  rewrite fmap_cons, NoDup_cons. intros [Hm Hl]. specialize (IH Hl).
  rewrite filter_cons. cbn [fst]. destruct (decide (m = e)) as [->|Hne].
  - rewrite decide_False by (by intros []).
    rewrite (decide_True (P := e ∈ e :: l.*1)) by apply list_elem_of_here.
    rewrite decide_False in IH by done. simpl. lia.
  - rewrite decide_True by done. cbn [length].
    destruct (decide (e ∈ l.*1)) as [He|He].
    + rewrite decide_True by (by apply list_elem_of_further). lia.
    + rewrite decide_False; [lia|]. rewrite not_elem_of_cons. by split.
Qed.

(** X1. Recording an event on a session whose log holds each event once
    returns the size of the log before the call, plus one unless the very
    same event (item, type, timestamp and metadata) is already in the log;
    so the count is at least 1 and never goes down, and the log still holds
    each event once. *)
Theorem add_event_count now sid item ty ts meta db :
  log_wf sid db →
  let event := {| item_id := item; event_type := ty; timestamp := default now ts;
                  metadata := default [] meta |} in
  let before := Z.of_nat (length (event_log sid db)) in
  let after := add_event now sid item ty ts meta db in
  after.2 = before + (if decide (event ∈ (event_log sid db).*1) then 0 else 1)
  ∧ 1 ≤ after.2 ∧ before ≤ after.2
  ∧ after.2 = Z.of_nat (length (event_log sid after.1))
  ∧ log_wf sid after.1.
Proof.
  intros Hwf event before after.
  assert (Hlog : event_log sid after.1
                 = filter (λ p, p.1 ≠ event) (event_log sid db)
                   ++ [(event, default now ts)]).
  { unfold after, add_event, event_log. cbn. by rewrite lookup_insert_eq. }
  assert (Hcount : after.2 = Z.of_nat (length (event_log sid after.1))).
  { unfold after, add_event, event_log, zcard. cbn. done. }
  pose proof (filter_other_members event (event_log sid db) Hwf) as Hlen.
  rewrite Hcount, Hlog, length_app. cbn [length]. subst before.
  split_and!.
  - destruct (decide (event ∈ (event_log sid db).*1)); lia.
  - lia.
  - destruct (decide (event ∈ (event_log sid db).*1)); lia.
  - done.
  - unfold log_wf. rewrite Hlog, fmap_app. apply NoDup_app. split_and!.
    + eapply sublist_NoDup; [exact Hwf|]. apply fmap_sublist, sublist_filter.
    + intros m (p & Hp & [Hne _]%list_elem_of_filter)%list_elem_of_fmap.
      intros Hm%list_elem_of_singleton. simpl in Hm. congruence.
    + apply NoDup_singleton.
Qed.

Lemma add_event_count_witness :
  (add_event 7 "s" "prod_1" "view" None None empty_db).2 = 1
  ∧ (add_event 7 "s" "prod_1" "view" None None
       (add_event 7 "s" "prod_1" "view" None None empty_db).1).2 = 1.
Proof.
  split.
  - destruct (add_event_count 7 "s" "prod_1" "view" None None empty_db) as (H & _).
    + vm_compute. constructor.
    + rewrite H. vm_compute. reflexivity.
  - destruct (add_event_count 7 "s" "prod_1" "view" None None
                (add_event 7 "s" "prod_1" "view" None None empty_db).1) as (H & _).
    + vm_compute. repeat constructor. intros []%elem_of_nil.
    + rewrite H. vm_compute. reflexivity.
Defined.

Lemma record_event_counts sid db c ty :
  default 0 (get_event_counts sid (record_event sid db c) !! ty)
  = default 0 (get_event_counts sid db !! ty) + (if decide (c_type c = ty) then 1 else 0).
Proof.
  unfold record_event, add_event, get_event_counts, hgetall, hincrby. cbn.
  rewrite lookup_insert_eq. cbn. rewrite lookup_insert.
  destruct (decide (c_type c = ty)) as [->|]; simpl; lia.
Qed.

(** X2. After any run of calls on a session the counter of each event type
    has grown by the number of calls of that type, and by nothing else. *)
Theorem event_counts_count_calls sid db cs ty :
  default 0 (get_event_counts sid (record_events sid db cs) !! ty)
  = default 0 (get_event_counts sid db !! ty)
    + Z.of_nat (length (filter (λ c, c_type c = ty) cs)).
Proof.
  revert db. induction cs as [|c cs IH]; intros db; [simpl; lia|].
  change (record_events sid db (c :: cs))
    with (record_events sid (record_event sid db c) cs).
  rewrite IH, record_event_counts, filter_cons.
  destruct (decide (c_type c = ty)); simpl; lia.
Qed.

(** X3. For [n] at least 1, [get_recent_items] returns the first [n] entries
    of the recency list; for [n = 0] the stop index is [-1], the last
    position, and it returns the whole list. *)
Theorem get_recent_items_prefix sid n db :
  0 ≤ n →
  get_recent_items sid n db
  = if decide (n = 0) then recency_list sid db
    else take (Z.to_nat n) (recency_list sid db).
Proof.
  intros Hn. unfold get_recent_items, lrange, recency_list.
  set (l := default [] (lists db !! items_key sid)).
  unfold Redis.range, Redis.resolve, Redis.resolve_stop.
  rewrite (decide_False (P := 0 < 0)) by lia.
  destruct (decide (n = 0)) as [->|H0].
  - rewrite (decide_True (P := 0 - 1 < 0)) by lia.
    case_decide as Hlt.
    + destruct l; [done|]. simpl in Hlt. lia.
    + simpl drop. apply take_ge. lia.
  - rewrite (decide_False (P := n - 1 < 0)) by lia.
    rewrite decide_False by lia. simpl drop. f_equal. lia.
Qed.

Lemma get_recent_items_prefix_witness :
  get_recent_items "s" 2 (record_events "s" empty_db (call_of <$> seq 0 3))
  = take 2 (recency_list "s" (record_events "s" empty_db (call_of <$> seq 0 3))).
Proof.
  apply (get_recent_items_prefix "s" 2
           (record_events "s" empty_db (call_of <$> seq 0 3))). lia.
Defined.

(** X4. Recording an event on one session leaves the recency list, the
    counters and the event log of every other session as they were. *)
Theorem add_event_other_session now sid sid' item ty ts meta db :
  sid ≠ sid' →
  let db' := (add_event now sid item ty ts meta db).1 in
  recency_list sid' db' = recency_list sid' db
  ∧ get_event_counts sid' db' = get_event_counts sid' db
  ∧ event_log sid' db' = event_log sid' db.
Proof.
  intros Hne db'. subst db'.
  unfold add_event, recency_list, get_event_counts, hgetall, event_log. cbn.
  rewrite !lookup_insert_ne; [done|..].
  - by intros ?%events_key_inj.
  - by intros ?%counters_key_inj.
  - by intros ?%items_key_inj.
  - by intros ?%items_key_inj.
Qed.

Lemma add_event_other_session_witness :
  recency_list "t" (add_event 0 "s" "prod_1" "view" None None empty_db).1
  = recency_list "t" empty_db.
Proof.
  apply (add_event_other_session 0 "s" "t" "prod_1" "view" None None empty_db).
  discriminate.
Defined.

Lemma key_suffix (a : string) (t : string) :
  reverse (String.list_ascii_of_string (a +:+ t))
  = reverse (String.list_ascii_of_string t) ++ reverse (String.list_ascii_of_string a).
Proof.
  rewrite <-reverse_app. f_equal.
  induction a as [|c a IH]; simpl; [done|]. by rewrite IH.
Qed.

Lemma key_kinds_differ a b :
  items_key a ≠ events_key b ∧ items_key a ≠ counters_key b
  ∧ events_key a ≠ counters_key b.
Proof.
  unfold items_key, events_key, counters_key.
  split_and!; intros H; simplify_eq/=;
    match goal with
    | H : _ +:+ _ = _ +:+ _ |- _ =>
        apply (f_equal (λ x, reverse (String.list_ascii_of_string x))) in H;
        rewrite !key_suffix in H; cbn in H; discriminate
    end.
Qed.

(** X5. Clearing a session empties its recency list, its counters and its
    event log, so that the next event recorded on it counts as the first;
    every other session keeps what it had. *)
Theorem clear_session_resets sid db :
  let db' := clear_session sid db in
  recency_list sid db' = []
  ∧ get_event_counts sid db' = ∅
  ∧ event_log sid db' = []
  ∧ (∀ now item ty ts meta, (add_event now sid item ty ts meta db').2 = 1)
  ∧ ∀ sid', sid' ≠ sid →
      recency_list sid' db' = recency_list sid' db
      ∧ get_event_counts sid' db' = get_event_counts sid' db
      ∧ event_log sid' db' = event_log sid' db.
Proof.
  intros db'. subst db'.
  destruct (key_kinds_differ sid sid) as (Hie & Hic & Hec).
  assert (Hlog : event_log sid (clear_session sid db) = []).
  { unfold event_log, clear_session, del. cbn. by rewrite lookup_delete_eq. }
  split_and!.
  - unfold recency_list, clear_session, del. cbn.
    rewrite lookup_delete_ne by congruence. by rewrite lookup_delete_eq.
  - unfold get_event_counts, hgetall, clear_session, del. cbn.
    rewrite !lookup_delete_ne by congruence. by rewrite lookup_delete_eq.
  - done.
  - intros now item ty ts meta. unfold add_event, zcard. cbn.
    by rewrite lookup_insert_eq, lookup_delete_eq.
  - intros sid' Hne.
    destruct (key_kinds_differ sid sid') as (Hie1 & Hic1 & Hec1).
    destruct (key_kinds_differ sid' sid) as (Hie2 & Hic2 & Hec2).
    unfold recency_list, get_event_counts, hgetall, event_log, clear_session, del. cbn.
    rewrite !lookup_delete_ne; [done|..]; try done;
      first [by intros ?%events_key_inj | by intros ?%items_key_inj
            | by intros ?%counters_key_inj].
Qed.

End StoreFacts.

(** ** Recommender, continued *)

Lemma StronglySorted_sublist {A} (R : relation A) (l1 l2 : list A) :
  l1 `sublist_of` l2 → StronglySorted R l2 → StronglySorted R l1.
Proof.
  intros Hsub Hl2. revert l1 Hsub.
  induction Hl2 as [|x l2 Hl2 IH Hx]; intros l1 Hsub.
  - apply sublist_nil_r in Hsub as ->. constructor.
  - inversion Hsub as [|y k1 k2 Hk|y k1 k2 Hk]; subst.
    + constructor; [by apply IH|].
      rewrite Forall_forall in Hx |- *. intros z Hz. apply Hx.
      by eapply elem_of_sublist.
    + by apply IH.
Qed.

Lemma enumerate_snd {A} (start : Z) (l : list A) : (Py.enumerate start l).*2 = l.
Proof. revert start. induction l as [|x l IH]; intros start; [done|]. cbn. by rewrite IH. Qed.

Lemma fmap_enumerate {A B} (g : Z * A → B) (h : A → B) (start : Z) (l : list A) :
  (∀ p, g p = h p.2) → g <$> Py.enumerate start l = h <$> l.
Proof.
  intros Hg. revert start. induction l as [|x l IH]; intros start; [done|].
  cbn. by rewrite Hg, IH.
Qed.

Module PipelineFacts.
Import Recommender Examples RecommenderFacts.

Lemma slice_to_nonempty {A} (k : Z) (l : list A) : 1 ≤ k → l ≠ [] → Py.slice_to k l ≠ [].
Proof.
  intros Hk Hl. unfold Py.slice_to. rewrite decide_True by lia.
  destruct l as [|x l]; [done|]. destruct (Z.to_nat k) eqn:E; [lia|done].
Qed.

Lemma slice_to_head {A} (k : Z) (l : list A) x top :
  Py.slice_to k l = x :: top → ∃ rest, l = x :: rest.
Proof.
  assert (Htake : ∀ n, take n l = x :: top → ∃ rest, l = x :: rest).
  { intros [|n]; [done|]. destruct l as [|y l]; [done|]. intros [= -> _]. eauto. }
  unfold Py.slice_to. case_decide; apply Htake.
Qed.

Lemma generate_candidates_NoDup set_order self ctx k excl :
  set_iteration set_order → NoDup (generate_candidates set_order self ctx k excl).
Proof.
  intros Hord. eapply sublist_NoDup; [|apply generate_candidates_sublist].
  rewrite (Hord _). apply NoDup_elements.
Qed.

(** The entries of a ranking: each is a candidate with its reason, and the
    items of the ranking are candidates, none more often than in the list. *)
Lemma rank_candidates_entry log1p self cands ctx res item score reason :
  rank_candidates log1p self cands ctx = Some res →
  (item, score, reason) ∈ res →
  item ∈ cands
  ∧ reason = reason_of (bool_decide (item ∈ recent_items ctx))
                       (Py.dict_get (item_popularity self) item 0).
Proof.
  intros (scores & ->)%rank_candidates_Some. rewrite sorted_desc_perm.
  intros (row & sc & [= -> -> ->] & Hrow & _)%elem_of_zip_with. split.
  - rewrite <-(build_features_fst log1p self cands ctx).
    apply list_elem_of_fmap. by exists row.
  - by eapply build_features_reason.
Qed.

Lemma rank_candidates_items log1p self cands ctx res :
  rank_candidates log1p self cands ctx = Some res →
  NoDup cands → NoDup res.*1.*1.
Proof.
  intros (scores & ->)%rank_candidates_Some Hnd. rewrite sorted_desc_perm.
  eapply sublist_NoDup; [exact Hnd|].
  rewrite <-(build_features_fst log1p self cands ctx) at 2.
  apply (scored_rows_items fst (λ row, _get_reason row.2)).
Qed.

Lemma rank_candidates_sorted log1p self cands ctx res :
  rank_candidates log1p self cands ctx = Some res → StronglySorted score_desc res.
Proof.
  intros (scores & ->)%rank_candidates_Some.
  apply (sorted_desc_sorted Qcle (λ x : string * Qc * Reason, x.1.2)).
Qed.

(** What [recommend] returns: nothing for no candidate, else the first [k]
    entries of the ranking, numbered. *)
Lemma recommend_Some set_order log1p self ctx k excl recs :
  recommend set_order log1p self ctx k excl = Some recs →
  let cands := generate_candidates set_order self ctx (Z.max (k * 5) 100) excl in
  (cands = [] ∧ recs = [])
  ∨ ∃ ranked top,
      cands ≠ [] ∧ rank_candidates log1p self cands ctx = Some ranked
      ∧ top = Py.slice_to k ranked
      ∧ ri_item_id <$> recs = top.*1.*1
      ∧ ri_score <$> recs = top.*1.*2
      ∧ ri_reason <$> recs = top.*2.
Proof.
  intros H cands. unfold recommend in H. fold cands in H.
  case_decide as Hlen.
  - left. injection H as <-. split; [|done]. by apply length_zero_iff_nil.
  - right. destruct (rank_candidates log1p self cands ctx) as [ranked|] eqn:E;
      [|done].
    injection H as <-. exists ranked, (Py.slice_to k ranked).
    split_and!; try done.
    + by intros ->.
    + rewrite <-list_fmap_compose.
      rewrite (fmap_enumerate _ (λ x : string * Qc * Reason, x.1.1)) by done.
      by rewrite <-list_fmap_compose.
    + rewrite <-list_fmap_compose.
      rewrite (fmap_enumerate _ (λ x : string * Qc * Reason, x.1.2)) by done.
      by rewrite <-list_fmap_compose.
    + rewrite <-list_fmap_compose.
      by rewrite (fmap_enumerate _ (λ x : string * Qc * Reason, x.2)) by done.
Qed.

(** X6. No item is recommended twice. *)
Theorem recommend_no_duplicates set_order log1p self ctx k excl recs :
  set_iteration set_order →
  recommend set_order log1p self ctx k excl = Some recs →
  NoDup (ri_item_id <$> recs).
Proof.
  intros Hord [[_ ->]|(ranked & top & _ & Hrank & -> & -> & _)]%recommend_Some.
  - constructor.
  - eapply sublist_NoDup.
    + eapply rank_candidates_items; [exact Hrank|].
      by apply generate_candidates_NoDup.
    + do 2 apply fmap_sublist. apply slice_to_sublist.
Qed.

(** X7. The scores of the returned list never go up along the ranks. *)
Theorem recommend_scores_descend set_order log1p self ctx k excl recs :
  recommend set_order log1p self ctx k excl = Some recs →
  StronglySorted (λ a b, (b ≤ a)%Qc) (ri_score <$> recs).
Proof.
  intros [[_ ->]|(ranked & top & _ & Hrank & -> & _ & -> & _)]%recommend_Some.
  - constructor.
  - rewrite <-list_fmap_compose.
    apply (StronglySorted_fmap _ score_desc); [done|].
    eapply StronglySorted_sublist; [apply slice_to_sublist|].
    by eapply rank_candidates_sorted.
Qed.

Lemma recommend_entry set_order log1p self ctx k excl recs r :
  recommend set_order log1p self ctx k excl = Some recs → r ∈ recs →
  ∃ ranked,
    rank_candidates log1p self
      (generate_candidates set_order self ctx (Z.max (k * 5) 100) excl) ctx = Some ranked
    ∧ (ri_item_id r, ri_score r, ri_reason r) ∈ ranked.
Proof.
  intros H Hr. unfold recommend in H. case_decide as Hlen.
  - injection H as <-. by apply elem_of_nil in Hr.
  - destruct (rank_candidates log1p self _ ctx) as [ranked|] eqn:E; [|done].
    injection H as <-. exists ranked. split; [done|].
    apply list_elem_of_fmap in Hr as ([rank [[item score] reason]] & -> & Hp).
    cbn. eapply elem_of_sublist; [|apply (slice_to_sublist k)].
    rewrite <-(enumerate_snd 1 (Py.slice_to k ranked)).
    apply list_elem_of_fmap. by eexists (_, _).
Qed.

(** X8. When some candidate survives the removal of the session and
    excluded items, no returned recommendation is a recent item of the
    session or an excluded item, and none carries the reason
    [viewed_recently]. *)
Theorem recommend_avoids_session set_order log1p self ctx k excl recs r :
  set_iteration set_order →
  filtered_candidates self ctx excl ≠ ∅ →
  recommend set_order log1p self ctx k excl = Some recs → r ∈ recs →
  (ri_item_id r ∉ recent_items ctx) ∧ (ri_item_id r ∉ default [] excl)
  ∧ ri_reason r ≠ viewed_recently.
Proof.
  intros Hord Hne Hrecs Hr.
  destruct (recommend_entry _ _ _ _ _ _ _ _ Hrecs Hr) as (ranked & Hrank & Hin).
  destruct (rank_candidates_entry _ _ _ _ _ _ _ _ Hrank Hin) as [Hcand Hreason].
  apply elem_of_generate_candidates in Hcand; [|done].
  destruct (candidate_set_cases self ctx (Z.max (k * 5) 100) excl)
    as [[_ Heq]|[? _]]; [|done].
  rewrite Heq, elem_of_filtered_candidates in Hcand.
  destruct Hcand as (_ & Hrecent & Hexcl). split_and!; [done|done|].
  rewrite Hreason, bool_decide_eq_false_2 by done.
  unfold reason_of. cbn. destruct (bool_decide (1000 < _)); intros ?; discriminate.
Qed.

Lemma instance_recommend_loaded set_order log1p (self : Instance.Attributes) table
    ctx k excl :
  Instance.item_popularity self = Some table →
  Instance.recommend set_order log1p self ctx k excl
  = recommend set_order log1p (Instance.loaded self table) ctx k excl.
Proof.
  intros Htable.
  unfold Instance.recommend, Instance.generate_candidates, Instance.rank_candidates.
  by rewrite Htable.
Qed.

Lemma instance_recommend_unloaded set_order log1p (self : Instance.Attributes)
    ctx k excl :
  set_iteration set_order → Instance.item_popularity self = None →
  Instance.recommend set_order log1p self ctx k excl = None.
Proof.
  intros Hord Hnone. unfold Instance.recommend, Instance.generate_candidates.
  rewrite Hnone. cbv zeta. case_decide as Hsize; [done|]. cbn [mbind option_bind].
  set (cset := filtered_candidates _ _ _) in *.
  assert (Hcands : Py.slice_to (Z.max (k * 5) 100) (set_order cset) ≠ []).
  { apply slice_to_nonempty; [lia|]. intros Hnil.
    apply Hsize. change (size cset) with (length (elements cset)).
    by rewrite <-(Hord cset), Hnil. }
  rewrite decide_False by (by rewrite length_zero_iff_nil).
  unfold Instance.rank_candidates, Instance.build_features. rewrite Hnone.
  by destruct (Py.slice_to _ _).
Qed.

(** X9. An object without ranker whose popularity table was assigned, with
    counts that a double holds exactly: for [k] not negative [recommend]
    returns exactly [min k n] entries, [n] being the size of the candidate
    set, and the score of each entry is the popularity count of its item.
    An object left without popularity table by a failed load raises
    instead, whatever the request. *)
Theorem recommend_fallback_count set_order log1p (self : Instance.Attributes)
    ctx k excl :
  set_iteration set_order → 0 ≤ k →
  (∀ table,
     Instance.model self = None → Instance.item_popularity self = Some table →
     Forall (λ entry, Py.int_exact entry.2) table →
     ∃ recs,
       Instance.recommend set_order log1p self ctx k excl = Some recs
       ∧ length recs
         = (Z.to_nat k
            `min` size (candidate_set (Instance.loaded self table) ctx
                          (Z.max (k * 5) 100) excl))%nat
       ∧ ∀ r, r ∈ recs → ri_score r = Qc_of_Z (Py.dict_get table (ri_item_id r) 0))
  ∧ (Instance.item_popularity self = None →
     Instance.recommend set_order log1p self ctx k excl = None).
Proof.
  intros Hord Hk. split; [|by apply instance_recommend_unloaded].
  intros table Hm Htable _.
  rewrite (instance_recommend_loaded _ _ _ _ _ _ _ Htable).
  set (rec := Instance.loaded self table).
  change (model rec = None) in Hm.
  change table with (item_popularity rec).
  set (cset := candidate_set rec ctx (Z.max (k * 5) 100) excl).
  set (cands := generate_candidates set_order rec ctx (Z.max (k * 5) 100) excl).
  assert (Hcands : length cands = (Z.to_nat (Z.max (k * 5) 100) `min` size cset)%nat).
  { unfold cands, generate_candidates, Py.slice_to. rewrite decide_True by lia.
    rewrite length_take. fold cset. by rewrite (Hord cset). }
  destruct (decide (cands = [])) as [Hnil|Hnil].
  - exists []. split_and!.
    + unfold recommend. fold cands. by rewrite Hnil.
    + rewrite Hnil in Hcands. simpl in *. lia.
    + by intros r ?%elem_of_nil.
  - destruct (rank_candidates_fallback_total log1p rec cands ctx Hm Hnil)
      as (ranked & Hrank & Hperm).
    eexists. split_and!.
    + unfold recommend. fold cands. rewrite decide_False, Hrank; [done|].
      by rewrite length_zero_iff_nil.
    + rewrite length_fmap, enumerate_length. unfold Py.slice_to.
      rewrite decide_True, length_take by done.
      rewrite <-(length_fmap fst ranked), Hperm, length_fmap, Hcands. lia.
    + intros r ([rank [[item score] reason]] & -> & Hp)%list_elem_of_fmap. cbn.
      assert (Hin : (item, score) ∈ ranked.*1).
      { apply list_elem_of_fmap. exists (item, score, reason). split; [done|].
        eapply elem_of_sublist; [|apply (slice_to_sublist k)].
        rewrite <-(enumerate_snd 1 (Py.slice_to k ranked)).
        apply list_elem_of_fmap. by eexists (_, _). }
      rewrite Hperm in Hin.
      by apply list_elem_of_fmap in Hin as (item' & [= -> ->] & _).
Qed.

(** X10. Without a ranker, and with popularity counts that a double holds
    exactly ([float(score)] is then the count itself), the first
    recommendation is at least as popular as every generated candidate. *)
Theorem recommend_fallback_top set_order log1p self ctx k excl r recs x :
  model self = None →
  Forall (λ entry, Py.int_exact entry.2) (item_popularity self) →
  recommend set_order log1p self ctx k excl = Some (r :: recs) →
  x ∈ generate_candidates set_order self ctx (Z.max (k * 5) 100) excl →
  Py.dict_get (item_popularity self) x 0
  ≤ Py.dict_get (item_popularity self) (ri_item_id r) 0
  ∧ ri_score r = Qc_of_Z (Py.dict_get (item_popularity self) (ri_item_id r) 0).
Proof.
  intros Hm _ Hrecs Hx.
  set (cands := generate_candidates set_order self ctx (Z.max (k * 5) 100) excl) in *.
  assert (Hnil : cands ≠ []) by (intros Hnil; rewrite Hnil in Hx; by apply elem_of_nil in Hx).
  destruct (rank_candidates_fallback_total log1p self cands ctx Hm Hnil)
    as (ranked & Hrank & Hperm).
  pose proof (rank_candidates_sorted _ _ _ _ _ Hrank) as Hsorted.
  unfold recommend in Hrecs. fold cands in Hrecs.
  rewrite decide_False, Hrank in Hrecs by (by rewrite length_zero_iff_nil).
  injection Hrecs as Hrecs.
  destruct (Py.slice_to k ranked) as [|[[item score] reason] top] eqn:Htop; [done|].
  injection Hrecs as <- _. cbn.
  destruct (slice_to_head _ _ _ _ Htop) as (rest & ->).
  assert (Hscore : ∀ i s, (i, s) ∈ ((item, score, reason) :: rest).*1 →
                          s = Qc_of_Z (Py.dict_get (item_popularity self) i 0)).
  { intros i s Hin. rewrite Hperm in Hin.
    by apply list_elem_of_fmap in Hin as (i' & [= -> ->] & _). }
  assert (Hitem : score = Qc_of_Z (Py.dict_get (item_popularity self) item 0)).
  { apply Hscore. cbn. apply list_elem_of_here. }
  split; [|done].
  assert (Hxin : (x, Qc_of_Z (Py.dict_get (item_popularity self) x 0))
                 ∈ ((item, score, reason) :: rest).*1).
  { rewrite Hperm. apply list_elem_of_fmap. by exists x. }
  apply list_elem_of_fmap in Hxin as ([[x' sx] rx] & [= <- <-] & Hxin).
  apply elem_of_cons in Hxin as [[= -> _ _]|Hxin]; [done|].
  apply StronglySorted_inv in Hsorted as [_ Hall].
  rewrite Forall_forall in Hall. specialize (Hall _ Hxin).
  unfold score_desc in Hall. cbn in Hall. rewrite Hitem in Hall.
  by apply Z2Qc_inj_le.
Qed.

(** X11. With a popularity table that is not empty and a pool size of at
    least 1, [generate_candidates] returns at least one item. *)
Theorem generate_candidates_nonempty set_order self ctx k excl :
  set_iteration set_order → item_popularity self ≠ [] → 1 ≤ k →
  generate_candidates set_order self ctx k excl ≠ [].
Proof.
  intros Hord Hpop Hk. unfold generate_candidates.
  apply slice_to_nonempty; [done|].
  intros Hnil. assert (Hempty : candidate_set self ctx k excl = ∅).
  { apply leibniz_equiv, elements_empty_iff.
    apply Permutation_nil_r. by rewrite <-(Hord _), Hnil. }
  destruct (candidate_set_cases self ctx k excl) as [[Hne Heq]|[_ Heq]].
  - by rewrite Heq in Hempty.
  - rewrite Heq in Hempty.
    destruct (item_popularity self) as [|[key v] table]; [done|].
    assert (Hin : key ∈ (list_to_set (Py.slice_to k ((key, v) :: table).*1) : gset string)).
    { apply elem_of_list_to_set. unfold Py.slice_to. rewrite decide_True by lia.
      cbn. destruct (Z.to_nat k) eqn:E; [lia|]. apply list_elem_of_here. }
    rewrite Hempty in Hin. by apply not_elem_of_empty in Hin.
Qed.

(** X12. [_get_similar_items] returns at most [n] items, the targets of
    rows of the source item, in the order of descending similarity; and no
    row of the source item that it leaves out is more similar than one it
    returns. *)
Theorem similar_items_are_top_n self frame item n :
  item_similarity self = Some frame →
  _get_similar_items self item n = item_id_2 <$> similar_df self item n
  ∧ (length (_get_similar_items self item n) ≤ n)%nat
  ∧ StronglySorted (λ a b, (similarity b ≤ similarity a)%Qc) (similar_df self item n)
  ∧ (∀ row, row ∈ similar_df self item n → row ∈ frame ∧ item_id_1 row = item)
  ∧ (∀ row other, row ∈ similar_df self item n →
       other ∈ frame → item_id_1 other = item → other ∉ similar_df self item n →
       (similarity other ≤ similarity row)%Qc).
Proof.
  intros Hframe. unfold _get_similar_items, similar_df. rewrite Hframe.
  set (rows := filter (λ row, item_id_1 row = item) frame).
  set (sorted := Py.sorted_desc Qcle similarity rows).
  assert (Hsorted : StronglySorted (λ a b, (similarity b ≤ similarity a)%Qc) sorted)
    by apply (sorted_desc_sorted Qcle similarity).
  assert (Hin : ∀ row, row ∈ sorted ↔ row ∈ frame ∧ item_id_1 row = item).
  { intros row. unfold sorted. rewrite sorted_desc_perm. unfold rows.
    by rewrite list_elem_of_filter, (comm and). }
  split_and!.
  - done.
  - rewrite length_fmap, length_take. lia.
  - eapply StronglySorted_sublist; [apply sublist_take|done].
  - intros row Hrow. apply Hin. eapply elem_of_sublist; [exact Hrow|apply sublist_take].
  - intros row other Hrow Hother Hitem Hout.
    assert (Hdrop : other ∈ drop n sorted).
    { assert (Hs : other ∈ sorted) by (by apply Hin).
      rewrite <-(take_drop n sorted) in Hs. apply elem_of_app in Hs as [?|?]; done. }
    rewrite <-(take_drop n sorted) in Hsorted.
    by apply (StronglySorted_app_1_elem_of _ _ _ row other) in Hsorted.
Qed.

(** X13. In every row of [build_features] the flag [in_recent_items] is 1
    exactly when the candidate is a recent item; then
    [position_in_session] is the index of its first occurrence in the
    recent items; otherwise the position is -1. The rows are those of the
    candidates, in order. *)
Theorem build_features_position log1p self cands ctx :
  (build_features log1p self cands ctx).*1 = cands
  ∧ ∀ item row, (item, row) ∈ build_features log1p self cands ctx →
      f_session_length row = Z.of_nat (length (recent_items ctx))
      ∧ (item ∈ recent_items ctx →
           f_in_recent_items row = 1
           ∧ 0 ≤ f_position_in_session row < f_session_length row
           ∧ recent_items ctx !! Z.to_nat (f_position_in_session row) = Some item
           ∧ ∀ j, (j < Z.to_nat (f_position_in_session row))%nat →
               recent_items ctx !! j ≠ Some item)
      ∧ (item ∉ recent_items ctx →
           f_in_recent_items row = 0 ∧ f_position_in_session row = -1).
Proof.
  split; [apply build_features_fst|].
  intros item row (item' & [= <- ->] & _)%list_elem_of_fmap. cbn.
  split_and!; [done|..].
  - intros Hin. rewrite decide_True by done.
    apply index_is_Some in Hin as [i Hi]. rewrite Hi.
    apply index_Some in Hi as [Hi Hfirst].
    pose proof (lookup_lt_Some _ _ _ Hi). rewrite Nat2Z.id. split_and!; try done; lia.
  - intros Hout. rewrite decide_False by done.
    by apply index_None in Hout as ->.
Qed.

Lemma scenario_recommend :
  recommend elements no_log1p scenario_self scenario_ctx 5 None = Some scenario_recs.
Proof. vm_compute. reflexivity. Qed.

Lemma scenario_filtered : filtered_candidates scenario_self scenario_ctx None ≠ ∅.
Proof.
  intros Hempty.
  assert (Hc : "C" ∈ filtered_candidates scenario_self scenario_ctx None).
  { apply (bool_decide_unpack _). vm_compute. exact I. }
  rewrite Hempty in Hc. by apply not_elem_of_empty in Hc.
Qed.

Lemma recommend_no_duplicates_witness : NoDup (ri_item_id <$> scenario_recs).
Proof.
  apply (recommend_no_duplicates elements no_log1p scenario_self scenario_ctx 5 None).
  - apply elements_iteration.
  - vm_compute. reflexivity.
Defined.

Lemma recommend_scores_descend_witness :
  StronglySorted (λ a b, (b ≤ a)%Qc) (ri_score <$> scenario_recs).
Proof.
  apply (recommend_scores_descend elements no_log1p scenario_self scenario_ctx 5 None).
  vm_compute. reflexivity.
Defined.

Lemma recommend_avoids_session_witness :
  ("C" ∉ recent_items scenario_ctx) ∧ ("C" ∉ default [] (@None (list string)))
  ∧ recommended ≠ viewed_recently.
Proof.
  apply (recommend_avoids_session elements no_log1p scenario_self scenario_ctx 5 None
           scenario_recs
           {| ri_item_id := "C"; ri_score := Qc_of_Z 10; ri_reason := recommended;
              ri_rank := 1 |}).
  - apply elements_iteration.
  - intros Hempty.
    assert (Hc : "C" ∈ filtered_candidates scenario_self scenario_ctx None).
    { apply (bool_decide_unpack _). vm_compute. exact I. }
    rewrite Hempty in Hc. by apply not_elem_of_empty in Hc.
  - vm_compute. reflexivity.
  - apply list_elem_of_here.
Defined.

Lemma recommend_fallback_count_witness :
  (∃ recs,
     Instance.recommend elements no_log1p (Instance.of_loaded scenario_self)
       scenario_ctx 1 None = Some recs
     ∧ length recs
       = (Z.to_nat 1 `min` size (candidate_set scenario_self scenario_ctx
                                   (Z.max (1 * 5) 100) None))%nat
     ∧ ∀ r, r ∈ recs →
         ri_score r
         = Qc_of_Z (Py.dict_get (item_popularity scenario_self) (ri_item_id r) 0))
  ∧ Instance.recommend elements no_log1p unloaded scenario_ctx 1 None = None.
Proof.
  split.
  - destruct (recommend_fallback_count elements no_log1p
                (Instance.of_loaded scenario_self) scenario_ctx 1 None)
      as [Hloaded _]; [apply elements_iteration|lia|].
    apply (Hloaded (item_popularity scenario_self)); [reflexivity|reflexivity|].
    apply (bool_decide_unpack _). vm_compute. exact I.
  - destruct (recommend_fallback_count elements no_log1p unloaded scenario_ctx 1 None)
      as [_ Hunloaded]; [apply elements_iteration|lia|].
    apply Hunloaded. reflexivity.
Defined.

Lemma recommend_fallback_top_witness :
  Py.dict_get (item_popularity scenario_self) "D" 0
  ≤ Py.dict_get (item_popularity scenario_self) "C" 0
  ∧ Qc_of_Z 10 = Qc_of_Z (Py.dict_get (item_popularity scenario_self) "C" 0).
Proof.
  apply (recommend_fallback_top elements no_log1p scenario_self scenario_ctx 5 None
           {| ri_item_id := "C"; ri_score := Qc_of_Z 10; ri_reason := recommended;
              ri_rank := 1 |}
           [ {| ri_item_id := "D"; ri_score := Qc_of_Z 1; ri_reason := recommended;
                ri_rank := 2 |} ] "D").
  - reflexivity.
  - apply (bool_decide_unpack _). vm_compute. exact I.
  - vm_compute. reflexivity.
  - apply (bool_decide_unpack _). vm_compute. exact I.
Defined.

Lemma generate_candidates_nonempty_witness :
  generate_candidates elements scenario_self (session_of ["A"; "B"; "C"; "D"]) 1 None ≠ [].
Proof.
  apply (generate_candidates_nonempty elements scenario_self).
  - apply elements_iteration.
  - discriminate.
  - lia.
Defined.

Lemma similar_items_are_top_n_witness :
  _get_similar_items with_similarity "A" 2 = ["D"; "E"]
  ∧ (length (_get_similar_items with_similarity "A" 2) ≤ 2)%nat.
Proof.
  destruct (similar_items_are_top_n with_similarity similarity_frame "A" 2 eq_refl)
    as (Heq & Hlen & _).
  split; [|exact Hlen]. rewrite Heq. vm_compute. reflexivity.
Defined.

End PipelineFacts.

(** ** From the store to the recommendations *)


Module ServiceFacts.
Import SessionStore Recommender Examples RecommenderFacts PipelineFacts.

Lemma range_0_19 {A} (l : list A) : Redis.range 0 (20 - 1) l = take 20 l.
Proof. reflexivity. Qed.

Lemma take_20_100 {A} (l : list A) : take 20 l = take 20 (take 100 l).
Proof. by rewrite take_take. Qed.

Lemma record_events_recency_100 sid db cs :
  take 100 (recency_list sid (record_events sid db cs))
  = take 100 (reverse (c_item <$> cs) ++ recency_list sid db).
Proof.
  revert db. induction cs as [|c cs IH]; intros db; [done|].
  change (record_events sid db (c :: cs))
    with (record_events sid (record_event sid db c) cs).
  rewrite IH, SessionStoreFacts.record_event_recency, SessionStoreFacts.take_app_take.
  by rewrite fmap_cons, reverse_cons, <-app_assoc.
Qed.

Lemma range_length_le {A} (limit : Z) (l : list A) :
  1 ≤ limit → Z.of_nat (length (Redis.range 0 (limit - 1) l)) ≤ limit.
Proof.
  intros Hl. unfold Redis.range, Redis.resolve, Redis.resolve_stop.
  rewrite (decide_False (P := 0 < 0)), (decide_False (P := limit - 1 < 0)) by lia.
  rewrite decide_False by lia. rewrite length_take. lia.
Qed.

Lemma range_sublist {A} (start stop : Z) (l : list A) :
  Redis.range start stop l `sublist_of` l.
Proof.
  unfold Redis.range. case_decide; [apply sublist_nil_l|].
  etrans; [apply sublist_take|apply sublist_drop].
Qed.

(** X14. After any run of calls on a session, the context handed to the
    recommender holds as recent items the twenty newest entries of the
    recency list: the items of the calls, latest first, before the earlier
    entries. Its recent events are at most fifty, each an event of the log,
    whatever the byte order of the stored members. *)
Theorem context_after_calls (member_le : Event → Event → Prop)
    `{!RelDecision member_le} sid db cs :
  let db' := record_events sid db cs in
  let ctx := get_session_context member_le sid db' in
  recent_items ctx = take 20 (reverse (c_item <$> cs) ++ recency_list sid db)
  ∧ (length (recent_items ctx) ≤ 20)%nat
  ∧ (length (recent_events ctx) ≤ 50)%nat
  ∧ ∀ e, e ∈ recent_events ctx → e ∈ (event_log sid db').*1.
Proof.
  intros db' ctx.
  assert (Hrecent : recent_items ctx
                    = take 20 (reverse (c_item <$> cs) ++ recency_list sid db)).
  { unfold ctx, get_session_context, get_recent_items, lrange. cbn [recent_items].
    rewrite range_0_19. fold (recency_list sid db').
    rewrite (take_20_100 (recency_list sid db')), (take_20_100 (_ ++ _)).
    unfold db'. by rewrite record_events_recency_100. }
  split_and!.
  - done.
  - rewrite Hrecent, length_take. lia.
  - unfold ctx, get_session_context, get_session_events, zrevrange. cbn [recent_events].
    rewrite length_fmap.
    pose proof (range_length_le 50
                  (Py.sorted_desc (zset_le member_le) id
                     (default [] (zsets db' !! events_key sid)))). lia.
  - intros e. unfold ctx, get_session_context, get_session_events, zrevrange.
    cbn [recent_events]. intros (p & -> & Hp)%list_elem_of_fmap.
    apply list_elem_of_fmap. exists p. split; [done|].
    eapply elem_of_sublist in Hp; [|apply range_sublist].
    by rewrite sorted_desc_perm in Hp.
Qed.

(** X15. A request that the schema admits ([1 ≤ k ≤ 100]), answered from
    the store, gets at most [k] recommendations, of distinct items; and
    unless the fallback applies none of them is one of the twenty most
    recent items of the session. *)
Theorem get_recommendations_valid (member_le : Event → Event → Prop)
    `{!RelDecision member_le} set_order log1p recommender db req recs :
  valid_request req → set_iteration set_order →
  get_recommendations member_le set_order log1p recommender db req = Some recs →
  Z.of_nat (length recs) ≤ req_k req ≤ 100
  ∧ NoDup (ri_item_id <$> recs)
  ∧ (filtered_candidates recommender
       (get_session_context member_le (req_session_id req) db)
       (req_exclude_items req) ≠ ∅ →
     ∀ r, r ∈ recs →
       ri_item_id r ∉ take 20 (recency_list (req_session_id req) db)).
Proof.
  intros [Hk1 Hk100] Hord Hrecs. unfold get_recommendations in Hrecs.
  set (ctx := get_session_context member_le (req_session_id req) db) in *.
  split_and!.
  - apply recommend_Some in Hrecs as [[_ ->]|(ranked & top & _ & _ & -> & Hitems & _)].
    + simpl. lia.
    + rewrite <-(length_fmap ri_item_id), Hitems, !length_fmap.
      apply slice_to_length_le. lia.
  - done.
  - apply recommend_Some in Hrecs as [[_ ->]|(ranked & top & _ & Hrank & -> & -> & _)].
    + constructor.
    + eapply sublist_NoDup.
      * eapply rank_candidates_items; [exact Hrank|].
        by apply generate_candidates_NoDup.
      * do 2 apply fmap_sublist. apply slice_to_sublist.
  - intros Hne r Hr.
    destruct (recommend_entry _ _ _ _ _ _ _ _ Hrecs Hr) as (ranked & Hrank & Hin).
    destruct (rank_candidates_entry _ _ _ _ _ _ _ _ Hrank Hin) as [Hcand _].
    apply elem_of_generate_candidates in Hcand; [|done].
    destruct (candidate_set_cases recommender ctx (Z.max (req_k req * 5) 100)
                (req_exclude_items req)) as [[_ Heq]|[? _]]; [|done].
    rewrite Heq, elem_of_filtered_candidates in Hcand.
    destruct Hcand as (_ & Hrecent & _).
    unfold ctx, get_session_context, get_recent_items, lrange in Hrecent.
    cbn [recent_items] in Hrecent. by rewrite range_0_19 in Hrecent.
Qed.

Lemma get_recommendations_valid_witness :
  Z.of_nat (length scenario_recs) ≤ 5 ≤ 100
  ∧ NoDup (ri_item_id <$> scenario_recs)
  ∧ ("C" ∉ take 20 (recency_list "S" scenario_db)).
Proof.
  destruct (get_recommendations_valid any_order elements no_log1p scenario_self
              scenario_db scenario_request scenario_recs)
    as (Hlen & Hnd & Hrecent).
  - vm_compute. split; discriminate.
  - apply elements_iteration.
  - vm_compute. reflexivity.
  - split; [exact Hlen|split; [exact Hnd|]].
    assert (Hne : filtered_candidates scenario_self
                    (get_session_context any_order "S" scenario_db) None ≠ ∅).
    { intros Hempty.
      assert (Hc : "C" ∈ filtered_candidates scenario_self
                          (get_session_context any_order "S" scenario_db) None).
      { apply (bool_decide_unpack _). vm_compute. exact I. }
      rewrite Hempty in Hc. by apply not_elem_of_empty in Hc. }
    apply (Hrecent Hne {| ri_item_id := "C"; ri_score := Qc_of_Z 10;
                          ri_reason := recommended; ri_rank := 1 |}).
    apply list_elem_of_here.
Defined.







End ServiceFacts.

(** ** Rationals *)

Lemma Qc_of_Z_div_this (a b : Z) :
  (this (Qc_of_Z a / Qc_of_Z b)%Qc == inject_Z a / inject_Z b)%Q.
Proof.
  unfold Qcdiv, Qcmult, Qcinv, Q2Qc. cbn [this].
  rewrite !Qred_correct. reflexivity.
Qed.

Lemma Qc_of_Z_div_bounds (a b : Z) :
  0 ≤ a ≤ b → 0 < b → (0 ≤ Qc_of_Z a / Qc_of_Z b)%Qc ∧ (Qc_of_Z a / Qc_of_Z b ≤ 1)%Qc.
Proof.
  intros [Ha Hab] Hb. unfold Qcle. rewrite !Qc_of_Z_div_this. cbn [this Q2Qc Qred].
  assert (Hb' : (0 < inject_Z b)%Q) by (change 0%Q with (inject_Z 0); by rewrite <-Zlt_Qlt).
  split.
  - apply Qle_shift_div_l; [done|]. rewrite Qmult_0_l.
    change 0%Q with (inject_Z 0). by rewrite <-Zle_Qle.
  - apply Qle_shift_div_r; [done|]. rewrite Qmult_1_l. by rewrite <-Zle_Qle.
Qed.

Lemma Qc_of_Z_div_pos (a b : Z) : 0 < a → 0 < b → (0 < Qc_of_Z a / Qc_of_Z b)%Qc.
Proof.
  intros Ha Hb. unfold Qclt. rewrite !Qc_of_Z_div_this. cbn [this Q2Qc Qred].
  apply Qlt_shift_div_l.
  - change 0%Q with (inject_Z 0); by rewrite <-Zlt_Qlt.
  - rewrite Qmult_0_l. change 0%Q with (inject_Z 0); by rewrite <-Zlt_Qlt.
Qed.

Lemma Qc_of_Z_div_same (b : Z) : b ≠ 0 → (Qc_of_Z b / Qc_of_Z b)%Qc = 1%Qc.
Proof.
  intros Hb. apply Qcmult_inv_r. intros H. apply Hb.
  rewrite <-Z2Qc_inj_0 in H. by apply Z2Qc_inj in H.
Qed.

(** ** Feature builder, continued *)

Lemma StronglySorted_lookup {A} (R : relation A) (l : list A) i j a b :
  StronglySorted R l → l !! i = Some a → l !! j = Some b → (i < j)%nat → R a b.
Proof.
  intros Hl. revert i j. induction Hl as [|x l Hl IH Hx]; intros i j Hi Hj Hij; [done|].
  destruct j as [|j]; [lia|]. destruct i as [|i]; simplify_eq/=.
  - rewrite Forall_forall in Hx. apply Hx. by eapply list_elem_of_lookup_2.
  - eapply IH; eauto. lia.
Qed.

Lemma dict_get_NoDup {V} (d : list (string * V)) (k : string) (v dflt : V) :
  NoDup d.*1 → (k, v) ∈ d → Py.dict_get d k dflt = v.
Proof.
  induction d as [|[k' v'] d IH]; [by intros _ ?%elem_of_nil|].
  rewrite fmap_cons, NoDup_cons. intros [Hk' Hd] [[= -> ->]|Hin]%elem_of_cons; simpl.
  - by rewrite decide_True.
  - rewrite decide_False; [by apply IH|]. intros ->. apply Hk'.
    apply list_elem_of_fmap. by exists (k, v).
Qed.

Module BuilderFacts.
Import Recommender FeatureBuilder Examples.

(** X16. The popularity rank of an item of the table lies between 1 and
    the size of the table; an item that the table does not hold gets the
    size plus one, and only such an item does. *)
Theorem popularity_rank_bounds item (popularity_dict : list (string * Z)) :
  1 ≤ _get_popularity_rank item popularity_dict ≤ Z.of_nat (length popularity_dict) + 1
  ∧ (_get_popularity_rank item popularity_dict = Z.of_nat (length popularity_dict) + 1
     ↔ item ∉ popularity_dict.*1).
Proof.
  unfold _get_popularity_rank.
  set (sorted := Py.sorted_desc Z.le snd popularity_dict).
  assert (Hperm : sorted.*1 ≡ₚ popularity_dict.*1)
    by (unfold sorted; by rewrite sorted_desc_perm).
  assert (Hlen : length sorted = length popularity_dict)
    by apply sorted_desc_length.
  destruct (Py.index item sorted.*1) as [i|] eqn:Hi.
  - apply index_Some in Hi as [Hi _].
    pose proof (lookup_lt_Some _ _ _ Hi) as Hlt. rewrite length_fmap in Hlt.
    split; [lia|]. split; [lia|]. intros Hout. destruct Hout.
    rewrite <-Hperm. by eapply list_elem_of_lookup_2.
  - apply index_None in Hi. rewrite Hperm in Hi. rewrite Hlen. split; [lia|done].
Qed.

(** X17. In a table, whose keys are distinct, an item with a greater count
    than another item has a smaller rank. *)
Theorem popularity_rank_monotone x y (popularity_dict : list (string * Z)) :
  NoDup popularity_dict.*1 → x ∈ popularity_dict.*1 →
  Py.dict_get popularity_dict y 0 < Py.dict_get popularity_dict x 0 →
  _get_popularity_rank x popularity_dict < _get_popularity_rank y popularity_dict.
Proof.
  intros Hnd Hx Hlt. unfold _get_popularity_rank.
  set (sorted := Py.sorted_desc Z.le snd popularity_dict).
  assert (Hperm : sorted ≡ₚ popularity_dict) by apply sorted_desc_perm.
  assert (Hsorted : StronglySorted (λ a b, b.2 ≤ a.2) sorted)
    by apply (sorted_desc_sorted Z.le snd).
  assert (Hget : ∀ i k v, sorted !! i = Some (k, v) →
                          Py.dict_get popularity_dict k 0 = v).
  { intros i k v Hi. apply dict_get_NoDup; [done|].
    rewrite <-Hperm. by eapply list_elem_of_lookup_2. }
  assert (Hix : is_Some (Py.index x sorted.*1)).
  { apply index_is_Some. by rewrite Hperm. }
  destruct Hix as [i Hi]. rewrite Hi.
  apply index_Some in Hi as [Hi _].
  pose proof (lookup_lt_Some _ _ _ Hi) as Hilt. rewrite length_fmap in Hilt.
  destruct (Py.index y sorted.*1) as [j|] eqn:Hj; [|lia].
  apply index_Some in Hj as [Hj _].
  rewrite list_lookup_fmap in Hi, Hj.
  destruct (sorted !! i) as [[kx vx]|] eqn:Ei; simplify_eq/=.
  destruct (sorted !! j) as [[ky vy]|] eqn:Ej; simplify_eq/=.
  rewrite (Hget _ _ _ Ei), (Hget _ _ _ Ej) in Hlt.
  destruct (decide (i < j)%nat) as [?|Hge]; [lia|].
  destruct (decide (i = j)) as [->|Hne]; [simplify_eq; lia|].
  assert (Hji : (j < i)%nat) by lia.
  pose proof (StronglySorted_lookup _ _ _ _ _ _ Hsorted Ej Ei Hji) as Hle.
  simpl in Hle. lia.
Qed.

Lemma popularity_rank_monotone_witness :
  _get_popularity_rank "C" [("A", 5); ("B", 3); ("C", 10); ("D", 1)]
  < _get_popularity_rank "A" [("A", 5); ("B", 3); ("C", 10); ("D", 1)].
Proof.
  apply popularity_rank_monotone.
  - apply (bool_decide_unpack _). vm_compute. exact I.
  - apply (bool_decide_unpack _). vm_compute. exact I.
  - vm_compute. reflexivity.
Defined.

(** X18. The similarity of two items does not depend on which of them is
    asked first. *)
Theorem get_similarity_symmetric item1 item2 similarity_matrix :
  _get_similarity item1 item2 similarity_matrix
  = _get_similarity item2 item1 similarity_matrix.
Proof.
  unfold _get_similarity. destruct similarity_matrix as [frame|]; [|done].
  assert (Hfilter :
    filter (λ row, (item_id_1 row = item1 ∧ item_id_2 row = item2)
                   ∨ (item_id_1 row = item2 ∧ item_id_2 row = item1)) frame
    = filter (λ row, (item_id_1 row = item2 ∧ item_id_2 row = item1)
                     ∨ (item_id_1 row = item1 ∧ item_id_2 row = item2)) frame).
  { apply list_filter_iff. intros row. tauto. }
  by rewrite Hfilter.
Qed.

Lemma size_list_to_set_le (l : list string) :
  (size (list_to_set l : gset string) ≤ length l)%nat.
Proof.
  induction l as [|x l IH]; [by rewrite list_to_set_nil, size_empty|].
  rewrite list_to_set_cons, size_union_alt, size_singleton. simpl.
  assert (Hsub : (list_to_set l ∖ {[x]} : gset string) ⊆ list_to_set l) by set_solver.
  apply subseteq_size in Hsub. lia.
Qed.

Lemma size_list_to_set_pos (l : list string) :
  l ≠ [] → (0 < size (list_to_set l : gset string))%nat.
Proof.
  destruct l as [|x l]; [done|]. intros _.
  rewrite list_to_set_cons, size_union_alt, size_singleton. lia.
Qed.

Lemma total_of_bounds (event_counts : gmap string Z) :
  (∀ ty n, event_counts !! ty = Some n → 0 ≤ n) →
  0 ≤ total_of event_counts
  ∧ ∀ ty, 0 ≤ default 0 (event_counts !! ty) ≤ total_of event_counts.
Proof.
  unfold total_of.
  induction event_counts as [|ty n m Hty IH] using map_ind; intros Hpos.
  - rewrite map_fold_empty. split; [done|]. intros ty. by rewrite lookup_empty.
  - rewrite map_fold_insert_L; [|intros; lia|done].
    destruct IH as [Hm Hall].
    { intros ty' n' Hn'. apply (Hpos ty'). rewrite lookup_insert_ne; [done|].
      intros ->. congruence. }
    assert (Hn : 0 ≤ n) by (apply (Hpos ty); by rewrite lookup_insert_eq).
    split; [lia|]. intros ty'. destruct (decide (ty = ty')) as [->|Hne].
    + rewrite lookup_insert_eq. simpl. lia.
    + rewrite lookup_insert_ne by done. specialize (Hall ty'). lia.
Qed.

(** X19. When no counter of the session is negative, the click-through,
    add-to-cart and conversion rates of [build_session_features] are defined
    and lie between 0 and 1; they are 0 when the counters sum to 0. *)
Theorem session_rates_are_fractions log1p items (event_counts : gmap string Z) duration :
  (∀ ty n, event_counts !! ty = Some n → 0 ≤ n) →
  ∀ name, name ∈ ["click_through_rate"; "add_to_cart_rate"; "conversion_rate"] →
    ∃ rate,
      build_session_features log1p items event_counts duration !! name = Some rate
      ∧ (0 ≤ rate)%Qc ∧ (rate ≤ 1)%Qc
      ∧ (total_of event_counts = 0 → rate = 0%Qc).
Proof.
  intros Hpos name Hname.
  destruct (total_of_bounds event_counts Hpos) as [Htotal Hall].
  unfold build_session_features.
  set_unfold in Hname. destruct Hname as [->|[->|[->|[]]]];
    destruct duration as [d|]; case_decide as Hgt;
    (eexists; split; [by simplify_map_eq|]);
    first [ split_and!; [done|done|done]
          | split_and!; [by apply Qc_of_Z_div_bounds; [apply Hall|]
                        |by apply Qc_of_Z_div_bounds; [apply Hall|]
                        |lia] ].
Qed.

Lemma session_rates_are_fractions_witness :
  ∃ rate,
    build_session_features (λ x, x) ["a"; "b"] {["view" := 2; "click" := 1]} None
      !! "click_through_rate" = Some rate
    ∧ (0 ≤ rate)%Qc ∧ (rate ≤ 1)%Qc
    ∧ (total_of ({["view" := 2; "click" := 1]} : gmap string Z) = 0 → rate = 0%Qc).
Proof.
  apply (session_rates_are_fractions (λ x, x) ["a"; "b"]
           {["view" := 2; "click" := 1]} None).
  - refine (bool_decide_unpack (map_Forall (λ (_ : string) (n : Z), 0 ≤ n) _) _).
    vm_compute. exact I.
  - apply list_elem_of_here.
Defined.

(** X20. The repetition rate of [build_session_features] is 1 for an empty
    session; for a session that is not empty it is at least 0 and below 1,
    and it is 0 when no item occurs twice. *)
Theorem session_repetition_rate log1p items (event_counts : gmap string Z) duration :
  ∃ rate,
    build_session_features log1p items event_counts duration
      !! "item_repetition_rate" = Some rate
    ∧ (items = [] → rate = 1%Qc)
    ∧ (items ≠ [] → (0 ≤ rate)%Qc ∧ (rate < 1)%Qc)
    ∧ (items ≠ [] → NoDup items → rate = 0%Qc).
Proof.
  eexists. split.
  { unfold build_session_features. destruct duration; case_decide; by simplify_map_eq. }
  split_and!.
  - intros ->. rewrite list_to_set_nil, size_empty. apply Qc_is_canon. reflexivity.
  - intros Hne.
    pose proof (size_list_to_set_le items). pose proof (size_list_to_set_pos items Hne).
    assert (Hlen : Z.max (Z.of_nat (length items)) 1 = Z.of_nat (length items)) by lia.
    rewrite Hlen.
    destruct (Qc_of_Z_div_bounds (Z.of_nat (size (list_to_set items : gset string)))
                (Z.of_nat (length items))) as [Hge Hle]; [lia|lia|].
    pose proof (Qc_of_Z_div_pos (Z.of_nat (size (list_to_set items : gset string)))
                  (Z.of_nat (length items))) as Hpos.
    split.
    + unfold Qcminus. apply (proj1 (Qcle_minus_iff _ _)). exact Hle.
    + apply Qclt_minus_iff.
      match goal with |- (0 < ?e)%Qc =>
        replace e with (Qc_of_Z (Z.of_nat (size (list_to_set items : gset string)))
                        / Qc_of_Z (Z.of_nat (length items)))%Qc by ring
      end.
      apply Hpos; lia.
  - intros Hne Hnd. rewrite size_list_to_set by done.
    destruct items as [|x items]; [done|].
    assert (Hlen : Z.max (Z.of_nat (length (x :: items))) 1
                   = Z.of_nat (length (x :: items))) by (simpl; lia).
    rewrite Hlen, Qc_of_Z_div_same by (simpl; lia). ring.
Qed.

Lemma build_session_features_dom log1p items (event_counts : gmap string Z) duration :
  dom (build_session_features log1p items event_counts duration)
  = list_to_set ["session_length"; "session_length_log"; "unique_items";
                 "item_repetition_rate"; "view_count"; "click_count";
                 "add_to_cart_count"; "purchase_count"; "click_through_rate";
                 "add_to_cart_rate"; "conversion_rate"; "engagement_score"]
    ∪ match duration with
      | Some _ => list_to_set ["session_duration_mins"; "session_duration_log";
                               "events_per_minute"]
      | None => ∅
      end.
Proof.
  unfold build_session_features.
  destruct duration; case_decide; rewrite !dom_insert_L, dom_empty_L; set_solver.
Qed.

Lemma build_item_features_dom log1p item (popularity_dict : list (string * Z)) :
  dom (build_item_features log1p item popularity_dict)
  = list_to_set ["item_popularity"; "item_popularity_log"; "item_popularity_rank";
                 "item_popularity_percentile"].
Proof.
  unfold build_item_features. cbv zeta. rewrite !dom_insert_L, dom_empty_L.
  vm_compute. reflexivity.
Qed.

(** X21. Whatever the candidate, the session and the optional inputs, the
    features of [build_all_features] define every name of
    [BASELINE_FEATURE_SET]. *)
Theorem baseline_features_present log1p {Time} (temporal : Time → Time → gmap string Qc)
    set_order item items (event_counts : gmap string Z) popularity_dict
    now start similarity_matrix name :
  name ∈ BASELINE_FEATURE_SET →
  is_Some (build_all_features log1p temporal set_order item items event_counts
             popularity_dict now start similarity_matrix !! name).
Proof.
  intros Hname. apply elem_of_dom. unfold build_all_features.
  assert (Hin : name ∈ dom (build_interaction_features set_order item items
                               similarity_matrix
                             ∪ (build_item_features (λ n, log1p (Qc_of_Z n)) item
                                  popularity_dict
                                ∪ (build_session_features log1p items event_counts None
                                   ∪ ∅)))).
  { rewrite !dom_union_L, build_session_features_dom, build_item_features_dom,
      FeatureBuilderFacts.build_interaction_features_dom, dom_empty_L.
    unfold BASELINE_FEATURE_SET in Hname.
    repeat (apply elem_of_cons in Hname as [->|Hname]);
      [..|by apply elem_of_nil in Hname];
      destruct similarity_matrix, items;
      apply (bool_decide_unpack _); vm_compute; exact I. }
  destruct now, start; try done. rewrite dom_union_L. apply elem_of_union. by right.
Qed.

Lemma baseline_features_present_witness :
  is_Some (build_all_features (λ x, x) (λ _ _ : unit, ∅) elements "c" ["a"] ∅
             [("c", 3)] None None None !! "recency_score").
Proof.
  apply baseline_features_present.
  apply (bool_decide_unpack _). vm_compute. exact I.
Defined.

(** X22. Each row of [create_feature_vector] belongs to one candidate, in
    order, and holds the entries of the session, item and interaction
    builders, each unchanged, and nothing else: no builder overwrites a
    feature of another. *)
Theorem feature_vector_rows log1p {Time} (temporal : Time → Time → gmap string Qc)
    set_order cands ctx popularity_dict similarity_matrix :
  let rows := create_feature_vector log1p temporal set_order cands ctx popularity_dict
                similarity_matrix in
  rows.*1 = cands
  ∧ ∀ item features, (item, features) ∈ rows →
      ∀ name value,
        features !! name = Some value
        ↔ (build_session_features log1p (recent_items ctx) (event_counts ctx) None
             !! name = Some value
           ∨ build_item_features (λ n, log1p (Qc_of_Z n)) item popularity_dict
               !! name = Some value
           ∨ build_interaction_features set_order item (recent_items ctx)
               similarity_matrix !! name = Some value).
Proof.
  intros rows. subst rows. unfold create_feature_vector. split.
  - rewrite <-list_fmap_compose. rewrite <-(list_fmap_id cands) at 2.
    by apply list_fmap_ext.
  - intros item features (item' & Heq & _)%list_elem_of_fmap name value.
    pose proof (f_equal fst Heq) as Hitem. pose proof (f_equal snd Heq) as Hfeat.
    cbn [fst snd] in Hitem, Hfeat. subst item' features. clear Heq.
    unfold build_all_features. cbv zeta.
    set (session_f := build_session_features log1p (recent_items ctx)
                        (event_counts ctx) None).
    set (item_f := build_item_features (λ n, log1p (Qc_of_Z n)) item popularity_dict).
    set (inter_f := build_interaction_features set_order item (recent_items ctx)
                      similarity_matrix).
    assert (Hd1 : item_f ##ₘ session_f ∪ ∅).
    { apply map_disjoint_dom_2. unfold item_f, session_f.
      rewrite dom_union_L, build_session_features_dom, build_item_features_dom,
        dom_empty_L. apply (bool_decide_unpack _). vm_compute. exact I. }
    assert (Hd2 : inter_f ##ₘ item_f ∪ (session_f ∪ ∅)).
    { apply map_disjoint_dom_2. unfold inter_f, item_f, session_f.
      rewrite !dom_union_L, build_session_features_dom, build_item_features_dom,
        FeatureBuilderFacts.build_interaction_features_dom, dom_empty_L.
      destruct similarity_matrix, (recent_items ctx);
        apply (bool_decide_unpack _); vm_compute; exact I. }
    rewrite (lookup_union_Some _ _ _ _ Hd2), (lookup_union_Some _ _ _ _ Hd1).
    rewrite (right_id_L ∅ (∪) session_f). tauto.
Qed.

End BuilderFacts.

(** ** Rationals in lowest terms, read as rationals *)

Lemma this_plus (x y : Qc) : (this (x + y)%Qc == this x + this y)%Q.
Proof. unfold Qcplus, Q2Qc. cbn [this]. apply Qred_correct. Qed.

Lemma this_opp (x : Qc) : (this (- x)%Qc == - this x)%Q.
Proof. unfold Qcopp, Q2Qc. cbn [this]. apply Qred_correct. Qed.

Lemma this_minus (x y : Qc) : (this (x - y)%Qc == this x - this y)%Q.
Proof. unfold Qcminus. rewrite this_plus, this_opp. reflexivity. Qed.

Lemma this_mult (x y : Qc) : (this (x * y)%Qc == this x * this y)%Q.
Proof. unfold Qcmult, Q2Qc. cbn [this]. apply Qred_correct. Qed.

Lemma this_div (x y : Qc) : (this (x / y)%Qc == this x / this y)%Q.
Proof.
  unfold Qcdiv, Qcinv, Q2Qc. rewrite this_mult. cbn [this]. by rewrite Qred_correct.
Qed.

Ltac qc_to_q :=
  unfold Qclt, Qcle in *;
  repeat match goal with
  | H : context [this (_ + _)%Qc] |- _ => rewrite this_plus in H
  | H : context [this (_ - _)%Qc] |- _ => rewrite this_minus in H
  | H : context [this (- _)%Qc] |- _ => rewrite this_opp in H
  | |- context [this (_ + _)%Qc] => rewrite this_plus
  | |- context [this (_ - _)%Qc] => rewrite this_minus
  | |- context [this (- _)%Qc] => rewrite this_opp
  end;
  change (this 0%Qc) with 0%Q in *; change (this 1%Qc) with 1%Q in *.

Lemma Qc_div_bounds (a b : Qc) :
  (0 ≤ a)%Qc → (a ≤ b)%Qc → (0 < b)%Qc → (0 ≤ a / b)%Qc ∧ (a / b ≤ 1)%Qc.
Proof.
  intros Ha Hab Hb. unfold Qcle, Qclt in *. rewrite this_div.
  change (this 0%Qc) with 0%Q in *. change (this 1%Qc) with 1%Q.
  split.
  - apply Qle_shift_div_l; [done|]. lra.
  - apply Qle_shift_div_r; [done|]. lra.
Qed.

Lemma Qc_div_mono (a b d : Qc) : (a ≤ b)%Qc → (0 < d)%Qc → (a / d ≤ b / d)%Qc.
Proof.
  intros Hab Hd. unfold Qcle, Qclt in *. rewrite !this_div.
  change (this 0%Qc) with 0%Q in *.
  apply Qle_shift_div_l; [done|].
  unfold Qdiv at 1. rewrite <-Qmult_assoc, (Qmult_comm (/ this d)).
  rewrite Qmult_assoc. fold (Qdiv (this a * this d) (this d)).
  rewrite Qdiv_mult_l; [done|]. intros H0. rewrite H0 in Hd. lra.
Qed.

(** ** Helpers, continued *)

Lemma max_of_bound (x : Qc) (l : list Qc) y : y ∈ x :: l → (y ≤ Py.max_of x l)%Qc.
Proof.
  unfold Py.max_of. revert x y. induction l as [|z l IH]; intros x y Hy; simpl.
  - apply list_elem_of_singleton in Hy as ->. apply Qcle_refl.
  - assert (Hx : (x ≤ if decide (x < z)%Qc then z else x)%Qc).
    { case_decide; [by apply Qclt_le_weak|apply Qcle_refl]. }
    assert (Hz : (z ≤ if decide (x < z)%Qc then z else x)%Qc).
    { case_decide as H; [apply Qcle_refl|by apply Qcnot_lt_le]. }
    apply elem_of_cons in Hy as [->|[->|Hy]%elem_of_cons].
    + etrans; [exact Hx|]. apply IH, list_elem_of_here.
    + etrans; [exact Hz|]. apply IH, list_elem_of_here.
    + by apply IH, list_elem_of_further.
Qed.

Lemma min_of_bound (x : Qc) (l : list Qc) y : y ∈ x :: l → (Py.min_of x l ≤ y)%Qc.
Proof.
  unfold Py.min_of. revert x y. induction l as [|z l IH]; intros x y Hy; simpl.
  - apply list_elem_of_singleton in Hy as ->. apply Qcle_refl.
  - assert (Hx : ((if decide (z < x)%Qc then z else x) ≤ x)%Qc).
    { case_decide; [by apply Qclt_le_weak|apply Qcle_refl]. }
    assert (Hz : ((if decide (z < x)%Qc then z else x) ≤ z)%Qc).
    { case_decide as H; [apply Qcle_refl|by apply Qcnot_lt_le]. }
    apply elem_of_cons in Hy as [->|[->|Hy]%elem_of_cons].
    + etrans; [|exact Hx]. apply IH, list_elem_of_here.
    + etrans; [|exact Hz]. apply IH, list_elem_of_here.
    + by apply IH, list_elem_of_further.
Qed.

Lemma min_of_elem_of (x : Qc) (l : list Qc) : Py.min_of x l ∈ x :: l.
Proof.
  unfold Py.min_of. revert x. induction l as [|y l IH]; intros x; simpl.
  - apply list_elem_of_here.
  - specialize (IH (if decide (y < x)%Qc then y else x)).
    apply elem_of_cons in IH as [->|IH].
    + case_decide; [apply list_elem_of_further|]; apply list_elem_of_here.
    + by do 2 apply list_elem_of_further.
Qed.

Module UtilFacts.
Import Helpers HelpersFacts.

Lemma batch_items_chunks {A} (items : list A) (batch_size : Z) :
  0 < batch_size →
  batch_items items batch_size
  = Some ((λ j, take (Z.to_nat batch_size) (drop (j * Z.to_nat batch_size) items))
            <$> seq 0 (Z.to_nat ((Z.of_nat (length items) + batch_size - 1)
                                   `div` batch_size))).
Proof.
  intros Hs. unfold batch_items, Py.range_to.
  rewrite !decide_False by lia. f_equal.
  rewrite <-list_fmap_compose. apply list_fmap_ext. intros _ j _.
  unfold Py.slice. cbn. f_equal; [f_equal; lia|f_equal; nia].
Qed.

Lemma concat_chunks {A} (l : list A) (n m : nat) :
  concat ((λ j, take n (drop (j * n) l)) <$> seq 0 m) = take (m * n) l.
Proof.
  induction m as [|m IH]; [done|].
  rewrite seq_S, fmap_app, concat_app, IH. cbn [fmap list_fmap concat].
  rewrite app_nil_r, take_take_drop. f_equal. lia.
Qed.

(** X23. For a positive batch size, [batch_items] cuts the list into
    consecutive batches: put end to end they give the list back; none is
    empty or longer than the batch size; and every batch but the last has
    exactly the batch size. *)
Theorem batch_items_partition {A} (items : list A) (batch_size : Z) :
  0 < batch_size →
  ∃ batches,
    batch_items items batch_size = Some batches
    ∧ concat batches = items
    ∧ (∀ b, b ∈ batches → (0 < length b)%nat ∧ Z.of_nat (length b) ≤ batch_size)
    ∧ (∀ i b, batches !! i = Some b → (S i < length batches)%nat →
         Z.of_nat (length b) = batch_size).
Proof.
  intros Hs. eexists. split; [by apply batch_items_chunks|].
  set (n := Z.to_nat batch_size).
  set (m := Z.to_nat ((Z.of_nat (length items) + batch_size - 1) `div` batch_size)).
  assert (Hdiv := Z.div_mod (Z.of_nat (length items) + batch_size - 1) batch_size
                    ltac:(lia)).
  assert (Hmod := Z.mod_pos_bound (Z.of_nat (length items) + batch_size - 1)
                    batch_size Hs).
  assert (Hq : 0 ≤ (Z.of_nat (length items) + batch_size - 1) `div` batch_size)
    by (apply Z.div_pos; lia).
  assert (Hupper : (length items ≤ m * n)%nat) by (unfold m, n; nia).
  assert (Hlower : ∀ j, (j < m)%nat → (j * n < length items)%nat)
    by (intros j Hj; unfold m, n in *; nia).
  split_and!.
  - rewrite concat_chunks. by apply take_ge.
  - intros b (j & -> & Hj)%list_elem_of_fmap.
    apply elem_of_seq in Hj. specialize (Hlower j ltac:(lia)).
    rewrite length_take, length_drop. unfold n in *. lia.
  - intros i b Hb Hi. rewrite length_fmap, length_seq in Hi.
    rewrite list_lookup_fmap in Hb.
    destruct (seq 0 m !! i) as [j|] eqn:Ej; [|done].
    apply lookup_seq in Ej as [-> _]. injection Hb as <-.
    specialize (Hlower (S i) ltac:(lia)).
    rewrite length_take, length_drop. unfold n in *. simpl in *. lia.
Qed.

Lemma batch_items_partition_witness :
  ∃ batches,
    batch_items [1; 2; 3; 4; 5; 6; 7] 3 = Some batches
    ∧ concat batches = [1; 2; 3; 4; 5; 6; 7]
    ∧ (∀ b, b ∈ batches → (0 < length b)%nat ∧ Z.of_nat (length b) ≤ 3)
    ∧ (∀ i b, batches !! i = Some b → (S i < length batches)%nat →
         Z.of_nat (length b) = 3).
Proof. apply (batch_items_partition [1; 2; 3; 4; 5; 6; 7] 3). lia. Defined.

(** X24. On scores of absolute value at most [2^1022], whose differences
    are therefore finite floats, [normalize_scores] keeps the length of the
    list and returns values between 0 and 1, and it keeps the order of the
    scores: a score that is not greater than another is normalised to a
    value that is not greater. *)
Theorem normalize_scores_unit_interval (scores : list Qc) :
  Forall Py.half_range scores →
  length (normalize_scores scores) = length scores
  ∧ (∀ y, y ∈ normalize_scores scores → (0 ≤ y)%Qc ∧ (y ≤ 1)%Qc)
  ∧ (∀ i j a b a' b',
       scores !! i = Some a → scores !! j = Some b →
       normalize_scores scores !! i = Some a' →
       normalize_scores scores !! j = Some b' →
       (a ≤ b)%Qc → (a' ≤ b')%Qc).
Proof.
  intros _. unfold normalize_scores. destruct scores as [|x l].
  { split; [done|split].
    - intros y Hy. by apply elem_of_nil in Hy.
    - intros i j a b a' b' Ha. rewrite lookup_nil in Ha. discriminate. }
  case_decide as Hconst.
  - split_and!.
    + by rewrite length_replicate.
    + intros y [-> _]%elem_of_replicate. split; by vm_compute.
    + intros i j a b a' b' _ _ [-> _]%lookup_replicate [-> _]%lookup_replicate _.
      apply Qcle_refl.
  - set (lo := Py.min_of x l) in *. set (hi := Py.max_of x l) in *.
    assert (Hlohi : (lo < hi)%Qc).
    { pose proof (min_of_bound x l hi (max_of_elem_of x l)) as Hle. fold lo in Hle.
      apply Qcle_lt_or_eq in Hle as [?|Heq]; [done|]. by destruct Hconst. }
    assert (Hwidth : (0 < hi - lo)%Qc) by (by apply Qclt_minus_iff in Hlohi).
    split_and!.
    + by rewrite length_fmap.
    + intros y (s & -> & Hs)%list_elem_of_fmap.
      pose proof (min_of_bound x l s Hs) as Hmin.
      pose proof (max_of_bound x l s Hs) as Hmax. fold lo in Hmin. fold hi in Hmax.
      apply Qc_div_bounds; [|clear Hmin|done]; qc_to_q; lra.
    + intros i j a b a' b' Ha Hb Ha' Hb' Hab.
      rewrite list_lookup_fmap in Ha', Hb'. rewrite Ha in Ha'. rewrite Hb in Hb'.
      injection Ha' as <-. injection Hb' as <-.
      apply Qc_div_mono; [|done]. qc_to_q. lra.
Qed.

Lemma normalize_scores_unit_interval_witness :
  length (normalize_scores [Q2Qc 2; Q2Qc 4; Q2Qc 3]) = 3%nat
  ∧ ∀ y, y ∈ normalize_scores [Q2Qc 2; Q2Qc 4; Q2Qc 3] → (0 ≤ y)%Qc ∧ (y ≤ 1)%Qc.
Proof.
  destruct (normalize_scores_unit_interval [Q2Qc 2; Q2Qc 4; Q2Qc 3])
    as (Hlen & Hunit & _).
  - apply (bool_decide_unpack _). vm_compute. exact I.
  - split; [exact Hlen|exact Hunit].
Defined.

(** X25. The recall at [k] lies between 0 and 1; it is 0 for an empty list
    of actual items and 1 when every actual item is among the first [k]
    predictions. *)
Theorem recall_in_unit_interval (actual predicted : list string) (k : Z) :
  (0 ≤ calculate_recall_at_k actual predicted k)%Qc
  ∧ (calculate_recall_at_k actual predicted k ≤ 1)%Qc
  ∧ (actual = [] → calculate_recall_at_k actual predicted k = 0%Qc)
  ∧ (actual ≠ [] → (∀ x, x ∈ actual → x ∈ Py.slice_to k predicted) →
     calculate_recall_at_k actual predicted k = 1%Qc).
Proof.
  unfold calculate_recall_at_k. destruct actual as [|a actual].
  { split_and!; done. }
  rewrite decide_False by done.
  set (pk := list_to_set (Py.slice_to k predicted) : gset string).
  set (aset := list_to_set (a :: actual) : gset string).
  assert (Hhits : (size (pk ∩ aset) ≤ size aset)%nat)
    by apply subseteq_size, intersection_subseteq_r.
  assert (Hpos : (0 < size aset)%nat) by (by apply BuilderFacts.size_list_to_set_pos).
  split_and!.
  - apply Qc_of_Z_div_bounds; lia.
  - apply Qc_of_Z_div_bounds; lia.
  - done.
  - intros _ Hall. assert (Heq : pk ∩ aset = aset).
    { apply set_eq. intros x. unfold pk, aset.
      rewrite elem_of_intersection, !elem_of_list_to_set. naive_solver. }
    rewrite Heq. apply Qc_of_Z_div_same. lia.
Qed.

(** X26. For a positive [k] the precision at [k] lies between 0 and 1; for
    [k = 0] it is 0. *)
Theorem precision_in_unit_interval (actual predicted : list string) (k : Z) :
  0 ≤ k →
  (0 ≤ calculate_precision_at_k actual predicted k)%Qc
  ∧ (calculate_precision_at_k actual predicted k ≤ 1)%Qc
  ∧ (k = 0 → calculate_precision_at_k actual predicted k = 0%Qc).
Proof.
  intros Hk. unfold calculate_precision_at_k. case_decide as Hk0.
  { split_and!; by vm_compute. }
  set (pk := list_to_set (Py.slice_to k predicted) : gset string).
  set (aset := list_to_set actual : gset string).
  assert (Hhits : (size (pk ∩ aset) ≤ size pk)%nat)
    by apply subseteq_size, intersection_subseteq_l.
  pose proof (BuilderFacts.size_list_to_set_le (Py.slice_to k predicted)) as Hsize.
  pose proof (slice_to_length_le k predicted Hk) as Hlen. fold pk in Hsize.
  split_and!.
  - apply Qc_of_Z_div_bounds; lia.
  - apply Qc_of_Z_div_bounds; lia.
  - done.
Qed.

Lemma precision_in_unit_interval_witness :
  (0 ≤ calculate_precision_at_k ["a"; "b"] ["b"; "c"; "a"] 2)%Qc
  ∧ (calculate_precision_at_k ["a"; "b"] ["b"; "c"; "a"] 2 ≤ 1)%Qc.
Proof.
  destruct (precision_in_unit_interval ["a"; "b"] ["b"; "c"; "a"] 2) as (H0 & H1 & _).
  - lia.
  - by split.
Defined.

Lemma allow_request_step now self :
  Z.of_nat (length (calls self)) ≤ max_calls self →
  let after := (allow_request now self).1 in
  max_calls after = max_calls self
  ∧ period_seconds after = period_seconds self
  ∧ Z.of_nat (length (calls after)) ≤ max_calls self
  ∧ ∀ t, t ∈ calls after → t ∈ calls self ∨ t = now.
Proof.
  intros Hinv after. subst after. unfold allow_request.
  set (recent := filter _ (calls self)).
  assert (Hrecent : (length recent ≤ length (calls self))%nat) by apply length_filter.
  case_decide as Hlt; cbn; split_and!; try done.
  - rewrite length_app. simpl. lia.
  - intros t [[_ ?]%list_elem_of_filter| ->%list_elem_of_singleton]%elem_of_app; auto.
  - lia.
  - intros t [_ ?]%list_elem_of_filter. auto.
Qed.

(** X27. A limiter made for [max_calls] calls, however many requests it is
    asked at whatever times, never holds more than [max_calls] recorded
    calls, all of them times of requests it was asked; and it refuses a
    request only when exactly [max_calls] recorded calls lie within the
    period before it. *)
Theorem rate_limiter_bounded (limit period : Z) (times : list Qc) (now : Qc) :
  0 ≤ limit →
  let self := foldl (λ st t, (allow_request t st).1) (new_limiter limit period) times in
  max_calls self = limit ∧ period_seconds self = period
  ∧ Z.of_nat (length (calls self)) ≤ limit
  ∧ (∀ t, t ∈ calls self → t ∈ times)
  ∧ ((allow_request now self).2 = false →
     Z.of_nat (length (filter (λ t, (now - t < Qc_of_Z period)%Qc) (calls self)))
     = limit).
Proof.
  intros Hlimit self.
  assert (Hinv : max_calls self = limit ∧ period_seconds self = period
                 ∧ Z.of_nat (length (calls self)) ≤ limit
                 ∧ ∀ t, t ∈ calls self → t ∈ times).
  { subst self. induction times as [|t times IH] using rev_ind.
    - cbn. split_and!; try done; try lia. all: by intros t ?%elem_of_nil.
    - rewrite foldl_app. cbn [foldl].
      destruct IH as (Hm & Hp & Hlen & Hin).
      destruct (allow_request_step t
                  (foldl (λ st t, (allow_request t st).1) (new_limiter limit period)
                     times)) as (Hm' & Hp' & Hlen' & Hin'); [lia|].
      split_and!; [congruence|congruence|lia|].
      intros t' [?| ->]%Hin'; apply elem_of_app; [left; auto|right].
      apply list_elem_of_here. }
  destruct Hinv as (Hm & Hp & Hlen & Hin). split_and!; try done.
  unfold allow_request. rewrite Hm, Hp.
  set (recent := filter _ (calls self)).
  assert (Hrecent : (length recent ≤ length (calls self))%nat) by apply length_filter.
  case_decide; cbn; [done|]. intros _. lia.
Qed.

Lemma rate_limiter_bounded_witness :
  let self := foldl (λ st t, (allow_request t st).1) (new_limiter 2 10)
                [Q2Qc 1; Q2Qc 2; Q2Qc 3] in
  Z.of_nat (length (calls self)) ≤ 2
  ∧ Z.of_nat (length (filter (λ t, (Q2Qc 4 - t < Qc_of_Z 10)%Qc) (calls self))) = 2.
Proof.
  intros self.
  destruct (rate_limiter_bounded 2 10 [Q2Qc 1; Q2Qc 2; Q2Qc 3] (Q2Qc 4))
    as (_ & _ & Hlen & _ & Hdenied); [lia|].
  split; [exact Hlen|]. apply Hdenied. vm_compute. reflexivity.
Defined.

(** X28. [wait_time] is never negative, and is 0 for a limiter without
    recorded calls. When a limiter that allows at least one call refuses a
    request, the wait time read at the same clock value is positive; it is
    at most the period when no recorded call lies in the future. *)
Theorem refused_request_waits (now : Qc) (self : RateLimiter) :
  1 ≤ max_calls self →
  let after := (allow_request now self).1 in
  (0 ≤ wait_time now self)%Qc
  ∧ (calls self = [] → wait_time now self = 0%Qc)
  ∧ ((allow_request now self).2 = false →
     (0 < wait_time now after)%Qc
     ∧ ((∀ t, t ∈ calls self → (t ≤ now)%Qc) →
        (wait_time now after ≤ Qc_of_Z (period_seconds self))%Qc)).
Proof.
  intros Hmax after. split; [|split].
  - unfold wait_time. destruct (calls self) as [|t ts]; [apply Qcle_refl|].
    unfold Py.max2. case_decide; [by apply Qclt_le_weak|apply Qcle_refl].
  - unfold wait_time. by intros ->.
  - subst after. unfold allow_request.
    set (recent := filter _ (calls self)).
    case_decide as Hlen; cbn [fst snd]; [done|]. intros _.
    unfold wait_time. cbn [calls period_seconds].
    destruct recent as [|t ts] eqn:Hrecent; [simpl in Hlen; lia|].
    set (oldest := Py.min_of t ts).
    assert (Hold : oldest ∈ filter (λ t, (now - t < Qc_of_Z (period_seconds self))%Qc)
                              (calls self)).
    { fold recent. rewrite Hrecent. apply min_of_elem_of. }
    apply list_elem_of_filter in Hold as [Hin Hcall].
    assert (Hpos : (0 < Qc_of_Z (period_seconds self) - (now - oldest))%Qc)
      by (qc_to_q; lra).
    unfold Py.max2. rewrite decide_True by done. split; [done|].
    intros Hpast. specialize (Hpast oldest Hcall). qc_to_q. lra.
Qed.

Lemma refused_request_waits_witness :
  (0 < wait_time (Q2Qc 4)
         (allow_request (Q2Qc 4)
            {| max_calls := 2; period_seconds := 10; calls := [Q2Qc 1; Q2Qc 2] |}).1)%Qc.
Proof.
  destruct (refused_request_waits (Q2Qc 4)
              {| max_calls := 2; period_seconds := 10; calls := [Q2Qc 1; Q2Qc 2] |})
    as (_ & _ & Hrefused); [simpl; lia|].
  apply Hrefused. vm_compute. reflexivity.
Defined.

Section diversify_head.
Context {Rec : Type} (score : Rec → option Qc) (category : Rec → option string).

Lemma diversify_loop_prefix rounds w selected remaining seen out :
  diversify_loop score category rounds w selected remaining seen = Some out →
  selected `prefix_of` out.
Proof.
  revert selected remaining seen.
  induction rounds as [|rounds IH]; intros selected remaining seen.
  - destruct remaining; [|done]. by intros [= <-].
  - destruct remaining as [|rec remaining]; [by intros [= <-]|].
    cbn [diversify_loop]. intros H.
    destruct (Py.max _) as [best|]; [|done]. cbn [mbind option_bind] in H.
    destruct (Py.index best _) as [i|]; [|done]. cbn [mbind option_bind] in H.
    destruct ((rec :: remaining) !! i) as [r|]; [|done]. cbn [mbind option_bind] in H.
    apply IH in H. etrans; [|exact H]. by apply prefix_app_r.
Qed.

Lemma final_score_unseen w (rec : Rec) :
  final_score score category w ∅ rec = default 0%Qc (score rec).
Proof. unfold final_score. rewrite decide_False by set_solver. ring. Qed.

(** X29. With a positive diversity weight the re-ranker puts first a
    recommendation of the greatest score, and among those of the greatest
    score the one that comes first in the list. *)
Theorem diversify_head_is_best (recommendations : list Rec) (w : Qc) best rest :
  (0 < w)%Qc →
  diversify_recommendations score category recommendations w = Some (best :: rest) →
  ∃ i, recommendations !! i = Some best
       ∧ (∀ r, r ∈ recommendations →
            (default 0 (score r) ≤ default 0 (score best))%Qc)
       ∧ ∀ j r, (j < i)%nat → recommendations !! j = Some r →
           (default 0 (score r) < default 0 (score best))%Qc.
Proof.
  intros Hw. unfold diversify_recommendations.
  destruct recommendations as [|rec recs]; [done|].
  rewrite decide_False by (by apply Qclt_not_le).
  cbn [length diversify_loop]. intros H.
  set (base := λ r : Rec, default 0%Qc (score r)).
  assert (Hscores : final_score score category w ∅ <$> rec :: recs = base <$> rec :: recs).
  { apply list_fmap_ext. intros _ r _. apply final_score_unseen. }
  rewrite Hscores in H. cbn [fmap list_fmap Py.max] in H.
  change (list_fmap ?f ?l) with (f <$> l) in H. cbn [mbind option_bind] in H.
  set (top := Py.max_of (base rec) (base <$> recs)) in *.
  destruct (Py.index top (base rec :: (base <$> recs))) as [i|] eqn:Hi; [|done].
  cbn [mbind option_bind] in H.
  destruct ((rec :: recs) !! i) as [r|] eqn:Hr; [|done].
  cbn [mbind option_bind] in H.
  apply diversify_loop_prefix in H as [tail Htail]. injection Htail as -> _.
  apply index_Some in Hi as [Hi Hfirst].
  change (base rec :: (base <$> recs)) with (base <$> rec :: recs) in Hi, Hfirst.
  rewrite list_lookup_fmap, Hr in Hi. injection Hi as Hi.
  exists i. split_and!; [done|..].
  - intros r' Hr'. fold (base r') (base r). rewrite Hi.
    apply max_of_bound. change (base rec :: (base <$> recs)) with (base <$> rec :: recs).
    apply list_elem_of_fmap. by exists r'.
  - intros j r' Hj Hr'. fold (base r') (base r). rewrite Hi.
    assert (Hle : (base r' ≤ top)%Qc).
    { apply max_of_bound. change (base rec :: (base <$> recs)) with (base <$> rec :: recs).
      apply list_elem_of_fmap. exists r'. split; [done|]. by eapply list_elem_of_lookup_2. }
    apply Qcle_lt_or_eq in Hle as [?|Heq]; [done|].
    destruct (Hfirst j Hj). by rewrite list_lookup_fmap, Hr', <-Heq.
Qed.
End diversify_head.

Lemma diversify_head_is_best_witness :
  ∃ i, [(Q2Qc 2, "a"); (Q2Qc 3, "a"); (Q2Qc 3, "b")] !! i = Some (Q2Qc 3, "a")
       ∧ (∀ r, r ∈ [(Q2Qc 2, "a"); (Q2Qc 3, "a"); (Q2Qc 3, "b")] →
            (default 0 (Some r.1) ≤ default 0 (Some (Q2Qc 3)))%Qc)
       ∧ ∀ j r, (j < i)%nat →
           [(Q2Qc 2, "a"); (Q2Qc 3, "a"); (Q2Qc 3, "b")] !! j = Some r →
           (default 0 (Some r.1) < default 0 (Some (Q2Qc 3)))%Qc.
Proof.
  apply (diversify_head_is_best (λ r : Qc * string, Some r.1) (λ r, Some r.2)
           [(Q2Qc 2, "a"); (Q2Qc 3, "a"); (Q2Qc 3, "b")] (Q2Qc 0.5)
           (Q2Qc 3, "a") [(Q2Qc 3, "b"); (Q2Qc 2, "a")]).
  - by vm_compute.
  - vm_compute. reflexivity.
Defined.

End UtilFacts.
